(** * SecretBallotBox: a shallow embedding of the ballot contract and of the
      off-chain reveal task, with the properties of its specification.

    The contract is [SecretBallotBox.sol] (Solidity ^0.8.24, checked
    arithmetic); the reveal task is the hardhat task [task:reveal-results].
    Storage mappings are finite maps read with the type's zero value as
    default, [uint256] values are integers with the overflow check of the
    compiler written out, and a transaction either returns a new storage and
    its events or reverts and leaves the storage as it was. *)

From stdpp Require Import gmap strings list fin_maps sorting.

Open Scope Z_scope.

(** ** Machine integers *)

Definition MAX_UINT256 : Z := 2 ^ 256 - 1.

Definition is_uint256 (x : Z) : Prop := 0 <= x <= MAX_UINT256.

(** The explicit conversion [uint32(x)] of a [uint256]: truncation. *)
Definition uint32 (x : Z) : Z := x mod 2 ^ 32.

(** ** Failures and the result monad *)

Inductive Failure :=
| Revert (msg : string)      (* a failed [require(cond, msg)] *)
| Panic (code : Z)            (* 0x11 arithmetic overflow, 0x32 index out of bounds *)
| InvalidInputProof.          (* the input verifier rejected the proof *)

Inductive Result (A : Type) :=
| Success (a : A)
| Fail (f : Failure).
Arguments Success {A} a.
Arguments Fail {A} f.

#[global] Instance Result_ret : MRet Result := fun _ a => Success a.
#[global] Instance Result_bind : MBind Result :=
  fun _ _ k m => match m with Success a => k a | Fail f => Fail f end.

Definition require (cond : bool) (msg : string) : Result unit :=
  if cond then Success tt else Fail (Revert msg).

Definition checked_add (a b : Z) : Result Z :=
  if a + b <=? MAX_UINT256 then Success (a + b) else Fail (Panic 17).

Definition checked_mul (a b : Z) : Result Z :=
  if a * b <=? MAX_UINT256 then Success (a * b) else Fail (Panic 17).

(** The names the specification gives to the contract's revert reasons. *)
Definition ValidationError (f : Failure) : Prop :=
  f = Revert "At least 2 candidates required" \/
  f = Revert "Maximum 10 candidates allowed" \/
  f = Revert "Duration must be positive" \/
  f = Revert "Invalid candidate index".
Definition NotFoundError : Failure := Revert "Ballot does not exist".
Definition NotActiveError (f : Failure) : Prop :=
  f = Revert "Ballot is not active" \/ f = Revert "Ballot has ended".
Definition StillActiveError : Failure := Revert "Ballot is still active".
Definition AlreadyRevealedError : Failure := Revert "Results already revealed".
Definition NotRevealedError : Failure := Revert "Results not yet revealed".
Definition DuplicateVoteError : Failure := Revert "Already voted".

(** ** The encryption service *)

Module FHE.

(** Modelled from the spec: the FHE library ([@fhevm/solidity/lib/FHE.sol])
    is not part of the sources. An EncryptedCounter is "an opaque
    ciphertext handle representing an unsigned 32-bit accumulator" that
    supports adding a constant; a handle is represented by the plaintext it
    encrypts, and [Uninit] is the all-zero handle of a storage slot that was
    never written ([ethers.ZeroHash] in the reveal task), which the service
    reads as zero. *)
Inductive euint32 :=
| Uninit
| Enc (v : Z).

Definition decrypt (h : euint32) : Z :=
  match h with Uninit => 0 | Enc v => v end.

Definition asEuint32 (v : Z) : euint32 := Enc (v mod 2 ^ 32).

Definition add (a b : euint32) : euint32 :=
  Enc ((decrypt a + decrypt b) mod 2 ^ 32).

End FHE.

(** ** Storage *)

Record Ballot := mkBallot {
  title : string;
  candidates : list string;
  endTime : Z;
  isActive : bool;
  resultsRevealed : bool;
  creator : Z;
  totalVotes : Z;
  encryptedVotes : gmap Z FHE.euint32;
  finalResults : gmap Z Z;
  hasVoted : gmap Z bool
}.

Definition set_title (x : string) (b : Ballot) : Ballot :=
  mkBallot x (candidates b) (endTime b) (isActive b) (resultsRevealed b)
    (creator b) (totalVotes b) (encryptedVotes b) (finalResults b) (hasVoted b).
Definition set_candidates (x : list string) (b : Ballot) : Ballot :=
  mkBallot (title b) x (endTime b) (isActive b) (resultsRevealed b)
    (creator b) (totalVotes b) (encryptedVotes b) (finalResults b) (hasVoted b).
Definition set_endTime (x : Z) (b : Ballot) : Ballot :=
  mkBallot (title b) (candidates b) x (isActive b) (resultsRevealed b)
    (creator b) (totalVotes b) (encryptedVotes b) (finalResults b) (hasVoted b).
Definition set_isActive (x : bool) (b : Ballot) : Ballot :=
  mkBallot (title b) (candidates b) (endTime b) x (resultsRevealed b)
    (creator b) (totalVotes b) (encryptedVotes b) (finalResults b) (hasVoted b).
Definition set_resultsRevealed (x : bool) (b : Ballot) : Ballot :=
  mkBallot (title b) (candidates b) (endTime b) (isActive b) x
    (creator b) (totalVotes b) (encryptedVotes b) (finalResults b) (hasVoted b).
Definition set_creator (x : Z) (b : Ballot) : Ballot :=
  mkBallot (title b) (candidates b) (endTime b) (isActive b) (resultsRevealed b)
    x (totalVotes b) (encryptedVotes b) (finalResults b) (hasVoted b).
Definition set_totalVotes (x : Z) (b : Ballot) : Ballot :=
  mkBallot (title b) (candidates b) (endTime b) (isActive b) (resultsRevealed b)
    (creator b) x (encryptedVotes b) (finalResults b) (hasVoted b).
Definition set_encryptedVotes (x : gmap Z FHE.euint32) (b : Ballot) : Ballot :=
  mkBallot (title b) (candidates b) (endTime b) (isActive b) (resultsRevealed b)
    (creator b) (totalVotes b) x (finalResults b) (hasVoted b).
Definition set_finalResults (x : gmap Z Z) (b : Ballot) : Ballot :=
  mkBallot (title b) (candidates b) (endTime b) (isActive b) (resultsRevealed b)
    (creator b) (totalVotes b) (encryptedVotes b) x (hasVoted b).
Definition set_hasVoted (x : gmap Z bool) (b : Ballot) : Ballot :=
  mkBallot (title b) (candidates b) (endTime b) (isActive b) (resultsRevealed b)
    (creator b) (totalVotes b) (encryptedVotes b) (finalResults b) x.

(** A storage slot that was never written reads as zero. *)
Definition zeroBallot : Ballot :=
  mkBallot "" [] 0 false false 0 0 ∅ ∅ ∅.

Record State := mkState {
  ballotCounter : Z;
  ballots : gmap Z Ballot
}.

Definition initState : State := mkState 0 ∅.

(** [ballots[id]] *)
Definition ballotAt (s : State) (id : Z) : Ballot :=
  default zeroBallot (ballots s !! id).

(** [ballots[id] = b] *)
Definition storeBallot (s : State) (id : Z) (b : Ballot) : State :=
  mkState (ballotCounter s) (<[id := b]> (ballots s)).

(** [ballot.encryptedVotes[i]], [ballot.finalResults[i]], [ballot.hasVoted[a]] *)
Definition encryptedVoteOf (b : Ballot) (i : Z) : FHE.euint32 :=
  default FHE.Uninit (encryptedVotes b !! i).
Definition finalResultOf (b : Ballot) (i : Z) : Z :=
  default 0 (finalResults b !! i).
Definition hasVotedOf (b : Ballot) (a : Z) : bool :=
  default false (hasVoted b !! a).

(** [candidates.length] *)
Definition len {A} (l : list A) : Z := Z.of_nat (length l).

(** ** Transactions: environment, events *)

Record Env := mkEnv {
  timestamp : Z;   (* block.timestamp *)
  sender : Z       (* msg.sender *)
}.

Inductive Event :=
| BallotCreated (ballotId : Z) (title : string) (creator : Z) (endTime : Z)
| VoteCast (ballotId : Z) (voter : Z)
| ResultsRevealed (ballotId : Z) (results : list Z).

(** ** Modifiers *)

Definition ballotExists (s : State) (ballotId : Z) : Result unit :=
  require (ballotId <? ballotCounter s) "Ballot does not exist".

Definition ballotActive (env : Env) (s : State) (ballotId : Z) : Result unit :=
  _ ← require (isActive (ballotAt s ballotId)) "Ballot is not active";
  require (timestamp env <? endTime (ballotAt s ballotId)) "Ballot has ended".

Definition ballotEnded (env : Env) (s : State) (ballotId : Z) : Result unit :=
  require (endTime (ballotAt s ballotId) <=? timestamp env) "Ballot is still active".

Definition hasNotVoted (env : Env) (s : State) (ballotId : Z) : Result unit :=
  require (negb (hasVotedOf (ballotAt s ballotId) (sender env))) "Already voted".

(** ** Loops *)

(** [for (uint256 i = start; i < start + |l|; i++) st = body(i, l[i - start], st)] *)
Fixpoint for_each {A S : Type} (body : Z -> A -> S -> S) (i : Z) (l : list A) (st : S) : S :=
  match l with
  | [] => st
  | x :: l' => for_each body (i + 1) l' (body i x st)
  end.

(** [for (uint256 i = start; i < start + n; i++) st = body(i, st)], where the
    body may revert. *)
Fixpoint for_range {S : Type} (body : Z -> S -> Result S) (i : Z) (n : nat) (st : S) : Result S :=
  match n with
  | O => Success st
  | S n' => st' ← body i st; for_range body (i + 1) n' st'
  end.

(** The storage writes [m[i] = v0; m[i+1] = v1; ...] of a loop over an array. *)
Fixpoint insert_all {V : Type} (i : Z) (vs : list V) (m : gmap Z V) : gmap Z V :=
  match vs with
  | [] => m
  | v :: vs' => insert_all (i + 1) vs' (<[i := v]> m)
  end.

(** ** createBallot *)

Definition createBallot (env : Env) (s : State)
    (title_ : string) (candidates_ : list string) (durationMinutes : Z)
    : Result (Z * State * list Event) :=
  _ ← require (2 <=? len candidates_) "At least 2 candidates required";
  _ ← require (len candidates_ <=? 10) "Maximum 10 candidates allowed";
  _ ← require (0 <? durationMinutes) "Duration must be positive";
  let ballotId := ballotCounter s in
  counter' ← checked_add (ballotCounter s) 1;
  let ballot := ballotAt s ballotId in
  let ballot := set_title title_ ballot in
  let ballot :=
    for_each (fun _ c b => set_candidates (candidates b ++ [c]) b) 0 candidates_ ballot in
  seconds ← checked_mul durationMinutes 60;
  endTime_ ← checked_add (timestamp env) seconds;
  let ballot := set_endTime endTime_ ballot in
  let ballot := set_isActive true ballot in
  let ballot := set_resultsRevealed false ballot in
  let ballot := set_creator (sender env) ballot in
  let ballot := set_totalVotes 0 ballot in
  let ballot :=
    for_each (fun i _ b =>
                set_encryptedVotes (<[i := FHE.asEuint32 0]> (encryptedVotes b)) b)
             0 candidates_ ballot in
  Success (ballotId,
           storeBallot (mkState counter' (ballots s)) ballotId ballot,
           [BallotCreated ballotId title_ (sender env) (endTime ballot)]).

(** ** Voting, the reveal commit and the views *)

(** An input verifier that accepts every proof, for the concrete runs below. *)
Definition acceptAll (sender_ handle : Z) (proof : list Z) : bool := true.

Section Contract.

(** [FHE.fromExternal(handle, inputProof)] asks the encryption service to
    check the proof that comes with an external ciphertext, for the calling
    account, and reverts when it is rejected. The service is not part of the
    sources: its verdict is a parameter of the model. *)
Variable inputVerifier : Z -> Z -> list Z -> bool.

Definition fromExternal (env : Env) (handle : Z) (inputProof : list Z) : Result Z :=
  if inputVerifier (sender env) handle inputProof
  then Success handle else Fail InvalidInputProof.

(** [FHE.allowThis] and [FHE.allow] write the access-control list kept by
    the encryption service, not the storage of this contract; they are not
    part of the state below. *)

Definition vote (env : Env) (s : State) (ballotId candidateIndex : Z)
    : Result (State * list Event) :=
  _ ← ballotExists s ballotId;
  _ ← ballotActive env s ballotId;
  _ ← hasNotVoted env s ballotId;
  let ballot := ballotAt s ballotId in
  _ ← require (candidateIndex <? len (candidates ballot)) "Invalid candidate index";
  let ballot :=
    set_encryptedVotes
      (<[candidateIndex :=
           FHE.add (encryptedVoteOf ballot candidateIndex) (FHE.asEuint32 1)]>
         (encryptedVotes ballot)) ballot in
  let ballot := set_hasVoted (<[sender env := true]> (hasVoted ballot)) ballot in
  total' ← checked_add (totalVotes ballot) 1;
  let ballot := set_totalVotes total' ballot in
  Success (storeBallot s ballotId ballot, [VoteCast ballotId (sender env)]).

Definition voteEncrypted (env : Env) (s : State)
    (ballotId encryptedCandidateIndex : Z) (inputProof : list Z)
    : Result (State * list Event) :=
  _ ← ballotExists s ballotId;
  _ ← ballotActive env s ballotId;
  _ ← hasNotVoted env s ballotId;
  let ballot := ballotAt s ballotId in
  _ ← fromExternal env encryptedCandidateIndex inputProof;
  let ballot :=
    set_encryptedVotes
      (<[0 := FHE.add (encryptedVoteOf ballot 0) (FHE.asEuint32 1)]>
         (encryptedVotes ballot)) ballot in
  let ballot := set_hasVoted (<[sender env := true]> (hasVoted ballot)) ballot in
  total' ← checked_add (totalVotes ballot) 1;
  let ballot := set_totalVotes total' ballot in
  Success (storeBallot s ballotId ballot, [VoteCast ballotId (sender env)]).

Definition setResults (env : Env) (s : State) (ballotId : Z) (results : list Z)
    : Result (State * list Event) :=
  _ ← ballotExists s ballotId;
  _ ← ballotEnded env s ballotId;
  let ballot := ballotAt s ballotId in
  _ ← require (negb (resultsRevealed ballot)) "Results already revealed";
  _ ← require (len results =? len (candidates ballot)) "Invalid results length";
  let ballot :=
    for_each (fun i r b => set_finalResults (<[i := uint32 r]> (finalResults b)) b)
             0 results ballot in
  let ballot := set_resultsRevealed true ballot in
  Success (storeBallot s ballotId ballot, [ResultsRevealed ballotId results]).

(** *** Views *)

Definition getEncryptedVoteCount (s : State) (ballotId candidateIndex : Z)
    : Result FHE.euint32 :=
  _ ← ballotExists s ballotId;
  _ ← require (candidateIndex <? len (candidates (ballotAt s ballotId)))
              "Invalid candidate index";
  Success (encryptedVoteOf (ballotAt s ballotId) candidateIndex).

Record BallotInfo := mkBallotInfo {
  info_title : string;
  info_candidates : list string;
  info_endTime : Z;
  info_isActive : bool;
  info_resultsRevealed : bool;
  info_creator : Z;
  info_totalVotes : Z
}.

Definition getBallotInfo (env : Env) (s : State) (ballotId : Z) : Result BallotInfo :=
  _ ← ballotExists s ballotId;
  let ballot := ballotAt s ballotId in
  Success (mkBallotInfo (title ballot) (candidates ballot) (endTime ballot)
             (isActive ballot && (timestamp env <? endTime ballot))
             (resultsRevealed ballot) (creator ballot) (totalVotes ballot)).

(** [a[i] = v] on a memory array: index checked. *)
Definition array_set (a : list Z) (i v : Z) : Result (list Z) :=
  if (0 <=? i) && (i <? len a)
  then Success (<[Z.to_nat i := v]> a) else Fail (Panic 50).

Definition getResults (s : State) (ballotId : Z) : Result (list Z) :=
  _ ← ballotExists s ballotId;
  let ballot := ballotAt s ballotId in
  _ ← require (resultsRevealed ballot) "Results not yet revealed";
  for_range (fun i results => array_set results i (finalResultOf ballot i))
            0 (length (candidates ballot))
            (replicate (length (candidates ballot)) 0).

Definition getTotalBallots (s : State) : Z := ballotCounter s.

Definition getActiveBallots (env : Env) (s : State) : Result (list Z) :=
  let n := Z.to_nat (ballotCounter s) in
  (* first pass: count active ballots *)
  activeCount ←
    for_range
      (fun i activeCount =>
         Success (if isActive (ballotAt s i) && (timestamp env <? endTime (ballotAt s i))
                  then activeCount + 1 else activeCount))
      0 n 0;
  (* second pass: populate array *)
  r ← for_range
        (fun i '(activeBallotIds, index) =>
           if isActive (ballotAt s i) && (timestamp env <? endTime (ballotAt s i))
           then ids' ← array_set activeBallotIds index i; Success (ids', index + 1)
           else Success (activeBallotIds, index))
        0 n (replicate (Z.to_nat activeCount) 0, 0);
  Success (fst r).

Definition getEndedBallots (env : Env) (s : State) : Result (list Z) :=
  let n := Z.to_nat (ballotCounter s) in
  (* first pass: count ended ballots *)
  endedCount ←
    for_range
      (fun i endedCount =>
         Success (if endTime (ballotAt s i) <=? timestamp env
                  then endedCount + 1 else endedCount))
      0 n 0;
  (* second pass: populate array *)
  r ← for_range
        (fun i '(endedBallotIds, index) =>
           if endTime (ballotAt s i) <=? timestamp env
           then ids' ← array_set endedBallotIds index i; Success (ids', index + 1)
           else Success (endedBallotIds, index))
        0 n (replicate (Z.to_nat endedCount) 0, 0);
  Success (fst r).

(** ** Transactions and runs *)

Inductive Call :=
| CreateBallot (title_ : string) (candidates_ : list string) (durationMinutes : Z)
| Vote (ballotId candidateIndex : Z)
| VoteEncrypted (ballotId encryptedCandidateIndex : Z) (inputProof : list Z)
| SetResults (ballotId : Z) (results : list Z).

Definition call (env : Env) (s : State) (c : Call) : Result (State * list Event) :=
  match c with
  | CreateBallot t cs d =>
      r ← createBallot env s t cs d; Success (snd (fst r), snd r)
  | Vote b i => vote env s b i
  | VoteEncrypted b h p => voteEncrypted env s b h p
  | SetResults b rs => setResults env s b rs
  end.

(** A transaction that reverts leaves the storage as it was. *)
Definition step (s : State) (env : Env) (c : Call) : State :=
  match call env s c with
  | Success r => fst r
  | Fail _ => s
  end.

Definition accepted (s : State) (env : Env) (c : Call) : bool :=
  match call env s c with Success _ => true | Fail _ => false end.

Definition run (s : State) (txs : list (Env * Call)) : State :=
  foldl (fun st tx => step st (fst tx) (snd tx)) s txs.

(** Arguments as the ABI delivers them. *)
Definition wf_call (c : Call) : Prop :=
  match c with
  | CreateBallot _ _ d => is_uint256 d
  | Vote b i => is_uint256 b /\ 0 <= i < 256
  | VoteEncrypted b h _ => is_uint256 b /\ is_uint256 h
  | SetResults b rs => is_uint256 b /\ Forall is_uint256 rs
  end.

Definition wf_env (env : Env) : Prop :=
  is_uint256 (timestamp env) /\ 0 <= sender env < 2 ^ 160.

(** States reachable from deployment, together with the time of the last
    block, when every transaction obeys [policy]. Block timestamps never
    decrease along the chain. *)
Inductive reachable_by (policy : State -> Env -> Call -> Prop) : State -> Z -> Prop :=
| reach_deploy t :
    is_uint256 t -> reachable_by policy initState t
| reach_tx s t env c :
    reachable_by policy s t ->
    t <= timestamp env -> wf_env env -> wf_call c -> policy s env c ->
    reachable_by policy (step s env c) (timestamp env).

Definition reachable : State -> Z -> Prop := reachable_by (fun _ _ _ => True).

End Contract.

(** ** The off-chain reveal task *)

Module RevealTask.

(** [fhevm.userDecryptEuint] either returns the clear value of the handle
    or throws. Whether the request for candidate [i] throws is a parameter
    [decryptFails i]; a request that succeeds returns the plaintext. *)
Definition userDecryptEuint (decryptFails : Z -> bool) (i : Z) (h : FHE.euint32)
    : option Z :=
  if decryptFails i then None else Some (FHE.decrypt h).

(** The body of the [for] loop: one candidate. Only the decryption is inside
    [try]; a revert of the view call is not caught. *)
Definition revealOne (decryptFails : Z -> bool) (s : State) (ballotId i : Z)
    (results : list Z) : Result (list Z) :=
  encryptedVoteCount ← getEncryptedVoteCount s ballotId i;
  match encryptedVoteCount with
  | FHE.Uninit => Success (results ++ [0])
  | _ =>
      match userDecryptEuint decryptFails i encryptedVoteCount with
      | Some clearVoteCount => Success (results ++ [clearVoteCount])
      | None => Success (results ++ [0])
      end
  end.

(** The [results] array the task builds before it sends the transaction. *)
Definition decryptAll (decryptFails : Z -> bool) (env : Env) (s : State) (ballotId : Z)
    : Result (list Z) :=
  ballotInfo ← getBallotInfo env s ballotId;
  for_range (revealOne decryptFails s ballotId) 0
            (length (info_candidates ballotInfo)) [].

Definition revealResults (decryptFails : Z -> bool) (env : Env) (s : State) (ballotId : Z)
    : Result (State * list Event) :=
  results ← decryptAll decryptFails env s ballotId;
  setResults env s ballotId results.

End RevealTask.

(** ** Quantities the properties speak about *)

(** The candidate indices of a ballot: [0 .. candidates.length - 1]. *)
Definition candidateIndices (b : Ballot) : list Z :=
  seqZ 0 (len (candidates b)).

Definition sumZ (l : list Z) : Z := foldr Z.add 0 l.


(** The plaintexts behind the per-candidate counters. *)
Definition decryptedCounters (b : Ballot) : list Z :=
  (fun i => FHE.decrypt (encryptedVoteOf b i)) <$> candidateIndices b.

Definition sumCounters (b : Ballot) : Z := sumZ (decryptedCounters b).

(** The ballot after an accepted vote that credits candidate [i] for voter [v]. *)
Definition credited (i v : Z) (ballot : Ballot) : Ballot :=
  set_totalVotes (totalVotes ballot + 1)
    (set_hasVoted (<[v := true]> (hasVoted ballot))
       (set_encryptedVotes
          (<[i := FHE.add (encryptedVoteOf ballot i) (FHE.asEuint32 1)]>
             (encryptedVotes ballot)) ballot)).

(** The ballot after an accepted [setResults(results)]. *)
Definition revealedWith (results : list Z) (ballot : Ballot) : Ballot :=
  set_resultsRevealed true
    (set_finalResults (insert_all 0 (uint32 <$> results) (finalResults ballot)) ballot).

(** The ballot [createBallot] writes into the slot [old] at time [now]. *)
Definition created (now creator_ : Z) (title_ : string) (candidates_ : list string)
    (durationMinutes : Z) (old : Ballot) : Ballot :=
  mkBallot title_ (candidates old ++ candidates_) (now + durationMinutes * 60)
    true false creator_ 0
    (insert_all 0 ((fun _ => FHE.asEuint32 0) <$> candidates_) (encryptedVotes old))
    (finalResults old) (hasVoted old).

(** What the reveal task writes for candidate [i]: 0 when the decryption
    request fails, the plaintext of the counter otherwise. *)
Definition revealedCount (decryptFails : Z -> bool) (x : Ballot) (i : Z) : Z :=
  if decryptFails i then 0 else FHE.decrypt (encryptedVoteOf x i).

(** A reveal is honest when the committed array is the decryption of the
    ballot's counters, as the reveal task computes it when no request fails. *)
Definition honestReveal (s : State) (env : Env) (c : Call) : Prop :=
  match c with
  | SetResults b rs => rs = decryptedCounters (ballotAt s b)
  | _ => True
  end.

(** The two conditions the list views test. *)
Definition activeAt (env : Env) (s : State) (i : Z) : bool :=
  isActive (ballotAt s i) && (timestamp env <? endTime (ballotAt s i)).
Definition endedAt (env : Env) (s : State) (i : Z) : bool :=
  endTime (ballotAt s i) <=? timestamp env.

(** The shape both list views share: a first pass counts the ids that
    satisfy the condition, a second pass fills an array of that size. *)
Definition collectIds (cond : Z -> bool) (s : State) : Result (list Z) :=
  let n := Z.to_nat (ballotCounter s) in
  count ← for_range (fun i c => Success (if cond i then c + 1 else c)) 0 n 0;
  r ← for_range
        (fun i '(ids, index) =>
           if cond i
           then ids' ← array_set ids index i; Success (ids', index + 1)
           else Success (ids, index))
        0 n (replicate (Z.to_nat count) 0, 0);
  Success (fst r).

(** The ids of all ballots created so far. *)
Definition ballotIds (s : State) : list Z := seqZ 0 (ballotCounter s).

(** Number of transactions of a run at which [resultsRevealed] of ballot [b]
    goes from false to true. *)
Fixpoint flips (iv : Z -> Z -> list Z -> bool) (b : Z) (s : State)
    (txs : list (Env * Call)) : nat :=
  match txs with
  | [] => O
  | tx :: txs' =>
      let s' := step iv s (fst tx) (snd tx) in
      ((if negb (resultsRevealed (ballotAt s b)) && resultsRevealed (ballotAt s' b)
        then 1 else 0) + flips iv b s' txs')%nat
  end.

(** Number of accepted [vote]/[voteEncrypted] calls by [v] on [b] in a run. *)
Definition isVoteBy (b v : Z) (tx : Env * Call) : bool :=
  match snd tx with
  | Vote b' _ | VoteEncrypted b' _ _ => bool_decide (b' = b) && bool_decide (sender (fst tx) = v)
  | _ => false
  end.

Fixpoint acceptedVotes (iv : Z -> Z -> list Z -> bool) (b v : Z) (s : State)
    (txs : list (Env * Call)) : nat :=
  match txs with
  | [] => O
  | tx :: txs' =>
      ((if isVoteBy b v tx && accepted iv s (fst tx) (snd tx) then 1 else 0)
       + acceptedVotes iv b v (step iv s (fst tx) (snd tx)) txs')%nat
  end.

(** ** Relational view of a transaction *)

(** What a transaction can do to the storage: nothing (a revert), or the
    write of one ballot. *)
Inductive transition (s : State) (env : Env) : Call -> State -> Prop :=
| tr_revert c :
    transition s env c s
| tr_create t cs d :
    2 <= len cs <= 10 -> 0 < d ->
    ballotCounter s + 1 <= MAX_UINT256 ->
    timestamp env + d * 60 <= MAX_UINT256 ->
    transition s env (CreateBallot t cs d)
      (storeBallot (mkState (ballotCounter s + 1) (ballots s)) (ballotCounter s)
         (created (timestamp env) (sender env) t cs d (ballotAt s (ballotCounter s))))
| tr_vote b k :
    b < ballotCounter s ->
    isActive (ballotAt s b) = true ->
    timestamp env < endTime (ballotAt s b) ->
    hasVotedOf (ballotAt s b) (sender env) = false ->
    k < len (candidates (ballotAt s b)) ->
    transition s env (Vote b k)
      (storeBallot s b (credited k (sender env) (ballotAt s b)))
| tr_voteEncrypted b h p :
    b < ballotCounter s ->
    isActive (ballotAt s b) = true ->
    timestamp env < endTime (ballotAt s b) ->
    hasVotedOf (ballotAt s b) (sender env) = false ->
    transition s env (VoteEncrypted b h p)
      (storeBallot s b (credited 0 (sender env) (ballotAt s b)))
| tr_setResults b rs :
    b < ballotCounter s ->
    endTime (ballotAt s b) <= timestamp env ->
    resultsRevealed (ballotAt s b) = false ->
    len rs = len (candidates (ballotAt s b)) ->
    transition s env (SetResults b rs)
      (storeBallot s b (revealedWith rs (ballotAt s b))).

(** [y] is a later version of the existing ballot [x]. *)
Definition evolves (x y : Ballot) : Prop :=
  title y = title x /\ candidates y = candidates x /\ endTime y = endTime x /\
  isActive y = isActive x /\ creator y = creator x /\
  (resultsRevealed x = true -> resultsRevealed y = true) /\
  (forall v, hasVotedOf x v = true -> hasVotedOf y v = true).

(** ** Invariants *)

Definition wf_state (s : State) : Prop :=
  0 <= ballotCounter s <= MAX_UINT256 /\
  (forall id, ballotCounter s <= id -> ballots s !! id = None) /\
  (forall b, 0 <= b < ballotCounter s ->
     isActive (ballotAt s b) = true /\
     2 <= len (candidates (ballotAt s b)) <= 10).

(** The counters of a ballot against its [totalVotes], at a time [t]. *)
Definition tally_inv (t : Z) (x : Ballot) : Prop :=
  (forall i, 0 <= FHE.decrypt (encryptedVoteOf x i) < 2 ^ 32) /\
  (exists q, 0 <= q /\ totalVotes x = sumCounters x + q * 2 ^ 32) /\
  (resultsRevealed x = true ->
     endTime x <= t /\
     forall i, 0 <= i < len (candidates x) ->
       finalResultOf x i = FHE.decrypt (encryptedVoteOf x i)).

(** ** Concrete runs *)

Module Scenario.

Definition alice : Z := 1001.
Definition bob : Z := 1002.

Definition create : Env * Call :=
  (mkEnv 1000 alice, CreateBallot "Election" ["Alice"; "Bob"; "Charlie"] 60).

Definition s1 : State := run acceptAll initState [create].
Definition s2 : State := run acceptAll s1 [(mkEnv 1010 bob, Vote 0 1)].
Definition s3 : State :=
  run acceptAll s2 [(mkEnv 4600 alice, SetResults 0 [0; 1; 0])].

(** A reveal with made-up counts, sent by an account that is not the creator. *)
Definition s3_forged : State :=
  run acceptAll s2 [(mkEnv 4600 bob, SetResults 0 [5; 5; 5])].

Definition revealTwice : list (Env * Call) :=
  [(mkEnv 4600 alice, SetResults 0 [0; 1; 0]);
   (mkEnv 5000 bob, SetResults 0 [9; 9; 9])].

End Scenario.

(** ** The remaining view, and counts of accepted calls *)

Module SecretBallotBox.

(** [hasVoted(ballotId, voter)], the external view. *)
Definition hasVoted (s : State) (ballotId voter : Z) : Result bool :=
  _ ← ballotExists s ballotId;
  Success (hasVotedOf (ballotAt s ballotId) voter).

End SecretBallotBox.

(** Number of accepted transactions of a run among those [sel] selects. *)
Fixpoint countAccepted (iv : Z -> Z -> list Z -> bool) (sel : Env * Call -> bool)
    (s : State) (txs : list (Env * Call)) : nat :=
  match txs with
  | [] => O
  | tx :: txs' =>
      ((if sel tx && accepted iv s (fst tx) (snd tx) then 1 else 0)
       + countAccepted iv sel (step iv s (fst tx) (snd tx)) txs')%nat
  end.

Definition isCreate (tx : Env * Call) : bool :=
  match snd tx with CreateBallot _ _ _ => true | _ => false end.

Definition isVoteOn (b : Z) (tx : Env * Call) : bool :=
  match snd tx with
  | Vote b' _ | VoteEncrypted b' _ _ => bool_decide (b' = b)
  | _ => false
  end.

(** The counters of a ballot against [totalVotes], and the phase, at time [t]. *)
Definition counter_inv (t : Z) (x : Ballot) : Prop :=
  (forall i, 0 <= FHE.decrypt (encryptedVoteOf x i) < 2 ^ 32) /\
  (exists q, 0 <= q /\ totalVotes x = sumCounters x + q * 2 ^ 32) /\
  (resultsRevealed x = true -> endTime x <= t).

(** [totalVotes] against the participation record. *)
Definition voters_inv (x : Ballot) : Prop :=
  totalVotes x = Z.of_nat (size (hasVoted x)) /\
  (forall v val, hasVoted x !! v = Some val -> val = true).

(** What [getBallotInfo] returns for an existing ballot [i]. *)
Definition ballotInfoOf (env : Env) (s : State) (i : Z) : BallotInfo :=
  mkBallotInfo (title (ballotAt s i)) (candidates (ballotAt s i))
    (endTime (ballotAt s i))
    (isActive (ballotAt s i) && (timestamp env <? endTime (ballotAt s i)))
    (resultsRevealed (ballotAt s i)) (creator (ballotAt s i))
    (totalVotes (ballotAt s i)).

(** ** The task that prints the results *)

Module GetResultsTask.

(** One pass of the loop body on candidate [cand] with [votes] votes.
    [Number(results[i])] is exact below [2^53] and is the identity here. The
    percentage the loop also prints is a floating-point figure that feeds
    nothing else; it is left out. *)
Definition tallyOne (votes : Z) (cand : string) (st : Z * list string)
    : Z * list string :=
  let '(maxVotes, winners) := st in
  if maxVotes <? votes then (votes, [cand])
  else if (votes =? maxVotes) && (0 <? maxVotes) then (maxVotes, winners ++ [cand])
  else (maxVotes, winners).

(** The loop over the candidate indices. An index past the end of [results]
    reads [undefined], whose number is NaN: both comparisons are false. *)
Definition winnersLoop (candidates_ : list string) (results : list Z)
    : Z * list string :=
  for_each
    (fun i cand st =>
       match results !! Z.to_nat i with
       | Some votes => tallyOne votes cand st
       | None => st
       end)
    0 candidates_ (0, []).

Inductive Report :=
| NotRevealedYet
| Winner (name : string) (maxVotes : Z)
| Tie (names : list string) (maxVotes : Z)
| NoVotesCast.

Definition report (st : Z * list string) : Report :=
  match snd st with
  | [w] => Winner w (fst st)
  | [] => NoVotesCast
  | ws => Tie ws (fst st)
  end.

Definition getResults_task (env : Env) (s : State) (ballotId : Z) : Result Report :=
  ballotInfo ← getBallotInfo env s ballotId;
  if negb (info_resultsRevealed ballotInfo) then Success NotRevealedYet
  else
    results ← getResults s ballotId;
    Success (report (winnersLoop (info_candidates ballotInfo) results)).

End GetResultsTask.

(** ** The task that lists the ballots *)

Module ListBallotsTask.

Inductive Status :=
| StatusActive
| StatusResultsRevealed
| StatusEndedPendingReveal.

Definition statusOf (ballotInfo : BallotInfo) : Status :=
  if info_isActive ballotInfo then StatusActive
  else if info_resultsRevealed ballotInfo then StatusResultsRevealed
  else StatusEndedPendingReveal.

(** The loop counter is a JavaScript number: the model is that of the task
    for fewer than [2^53] ballots. *)
Definition listBallots (env : Env) (s : State) : Result (list (Z * Status)) :=
  let totalBallots := getTotalBallots s in
  if totalBallots =? 0 then Success []
  else
    for_range
      (fun i lines =>
         ballotInfo ← getBallotInfo env s i;
         Success (lines ++ [(i, statusOf ballotInfo)]))
      0 (Z.to_nat totalBallots) [].

End ListBallotsTask.

(** ** The front end's hook *)

Module UseSecretBallotBox.

(** The hook's [BallotInfo] objects. [Number(x)] of a contract integer is
    exact below [2^53] and is the identity here; the properties below that
    depend on it carry the bound. *)
Record ClientBallot := mkClientBallot {
  cb_id : Z;
  cb_title : string;
  cb_candidates : list string;
  cb_endTime : Z;
  cb_isActive : bool;
  cb_resultsRevealed : bool;
  cb_creator : Z;
  cb_totalVotes : Z;
  cb_hasUserVoted : bool
}.

(** The body of [ballotInfos.map((info, index) => ...)] in [loadBallots]. *)
Definition transformBallot (currentTime : Z) (userVotedResults : list bool)
    (index : nat) (info : BallotInfo) : ClientBallot :=
  let hasEnded := info_endTime info <=? currentTime in
  mkClientBallot (Z.of_nat index) (info_title info) (info_candidates info)
    (info_endTime info) (negb hasEnded && info_isActive info)
    (info_resultsRevealed info) (info_creator info) (info_totalVotes info)
    (default false (userVotedResults !! index)).

(** [loadBallots]: the list the hook stores in [ballots]. [user] is the
    signer's address when a signer is available; [currentTime] is the
    browser's clock in seconds, [env] the block the view calls run in. *)
Definition loadBallots (currentTime : Z) (user : option Z) (env : Env) (s : State)
    : Result (list ClientBallot) :=
  let ballotCount := getTotalBallots s in
  if ballotCount =? 0 then Success []
  else
    ballotInfos ←
      for_range (fun i acc => info ← getBallotInfo env s i; Success (acc ++ [info]))
                0 (Z.to_nat ballotCount) [];
    userVotedResults ←
      match user with
      | Some userAddress =>
          for_range
            (fun i acc => v ← SecretBallotBox.hasVoted s i userAddress;
                          Success (acc ++ [v]))
            0 (Z.to_nat ballotCount) []
      | None => Success []
      end;
    Success (imap (transformBallot currentTime userVotedResults) ballotInfos).

Definition activeBallots (ballots_ : list ClientBallot) : list ClientBallot :=
  filter (fun ballot => cb_isActive ballot = true) ballots_.

Definition endedBallots (ballots_ : list ClientBallot) : list ClientBallot :=
  filter (fun ballot => negb (cb_isActive ballot) = true) ballots_.

(** [ballots.find(b => b.id === ballotId)] *)
Fixpoint findBallot (ballotId : Z) (ballots_ : list ClientBallot) : option ClientBallot :=
  match ballots_ with
  | [] => None
  | b :: rest => if cb_id b =? ballotId then Some b else findBallot ballotId rest
  end.

(** [results[0] = v] on a JavaScript array: an empty array grows to length 1. *)
Definition assignFirst (results : list Z) (v : Z) : list Z :=
  match results with
  | [] => [v]
  | _ :: rest => v :: rest
  end.

(** The array [revealResults] commits: one 0 per candidate, whatever the
    counter read returns, then all votes on the first candidate. *)
Definition revealArray (s : State) (ballotId : Z) (ballot : ClientBallot) : list Z :=
  let results :=
    for_each
      (fun i _ results =>
         match getEncryptedVoteCount s ballotId i with
         | Success FHE.Uninit => results ++ [0]
         | Success _ => results ++ [0]
         | Fail _ => results ++ [0]
         end)
      0 (cb_candidates ballot) [] in
  if 0 <? cb_totalVotes ballot
  then assignFirst results (cb_totalVotes ballot)
  else results.

Inductive RevealOutcome :=
| RevealAlreadyRevealed
| RevealStillActive
| RevealCommitted (s' : State) (events : list Event)
| RevealFailed (f : Failure).

(** [revealResults(ballotId)] with a signer present, on the cached list
    [ballots_]. The [catch] block sorts a revert by its reason. *)
Definition revealResults (ballots_ : list ClientBallot) (currentTime : Z)
    (env : Env) (s : State) (ballotId : Z) : RevealOutcome :=
  match findBallot ballotId ballots_ with
  | None => RevealFailed (Revert "Ballot not found")
  | Some ballot =>
      if cb_resultsRevealed ballot then RevealAlreadyRevealed
      else
        match getBallotInfo env s ballotId with
        | Fail f => RevealFailed f
        | Success freshBallotInfo =>
            if info_resultsRevealed freshBallotInfo then RevealAlreadyRevealed
            else if currentTime <? cb_endTime ballot then RevealStillActive
            else
              match setResults env s ballotId (revealArray s ballotId ballot) with
              | Success r => RevealCommitted (fst r) (snd r)
              | Fail (Revert "Results already revealed") => RevealAlreadyRevealed
              | Fail (Revert "Ballot is still active") => RevealStillActive
              | Fail f => RevealFailed f
              end
        end
  end.

(** [Math.max(...resultNumbers)]; [None] stands for [-Infinity]. *)
Definition mathMax (resultNumbers : list Z) : option Z :=
  match resultNumbers with
  | [] => None
  | r :: rest => Some (foldl Z.max r rest)
  end.

(** [resultNumbers.findIndex(votes => votes === maxVotes)]; [None] is [-1]. *)
Fixpoint findIndex (maxVotes : Z) (resultNumbers : list Z) : option nat :=
  match resultNumbers with
  | [] => None
  | votes :: rest =>
      if votes =? maxVotes then Some O
      else S <$> findIndex maxVotes rest
  end.

(** The [winner] field [getBallotResults] derives from the contract's array. *)
Definition winnerOf (candidates_ : list string) (resultNumbers : list Z) : option string :=
  match mathMax resultNumbers with
  | None => None
  | Some maxVotes =>
      match findIndex maxVotes resultNumbers with
      | Some winnerIndex => candidates_ !! winnerIndex
      | None => None
      end
  end.

End UseSecretBallotBox.

(** * Proofs *)

(** ** Loops in closed form *)

Lemma lookup_insert_all {V : Type} (vs : list V) (i k : Z) (m : gmap Z V) :
  insert_all i vs m !! k =
  if decide (i <= k < i + len vs) then vs !! Z.to_nat (k - i) else m !! k.
Proof.
  revert i m. induction vs as [|v vs IH]; intros i m; simpl.
  - unfold len; simpl. case_decide; [lia | done].
  - rewrite IH. unfold len in *; simpl length.
    destruct (decide (k = i)) as [->|Hne].
    + rewrite decide_False by lia. rewrite lookup_insert_eq.
      rewrite decide_True by lia. by rewrite Z.sub_diag.
    + rewrite lookup_insert_ne by done.
      repeat case_decide; try lia; try done.
      replace (Z.to_nat (k - i)) with (S (Z.to_nat (k - (i + 1)))) by lia.
      done.
Qed.

Lemma for_each_finalResults (rs : list Z) (i : Z) (b : Ballot) :
  for_each (fun i r b => set_finalResults (<[i := uint32 r]> (finalResults b)) b) i rs b
  = set_finalResults (insert_all i (uint32 <$> rs) (finalResults b)) b.
Proof.
  revert i b. induction rs as [|r rs IH]; intros i b; simpl.
  - by destruct b.
  - rewrite IH. by destruct b.
Qed.

Lemma for_each_candidates (cs : list string) (i : Z) (b : Ballot) :
  for_each (fun _ c b => set_candidates (candidates b ++ [c]) b) i cs b
  = set_candidates (candidates b ++ cs) b.
Proof.
  revert i b. induction cs as [|c cs IH]; intros i b; simpl.
  - rewrite app_nil_r. by destruct b.
  - rewrite IH. destruct b; simpl. unfold set_candidates; simpl.
    by rewrite <- app_assoc.
Qed.

Lemma for_each_encryptedVotes {A : Type} (cs : list A) (i : Z) (b : Ballot) :
  for_each (fun i _ b =>
              set_encryptedVotes (<[i := FHE.asEuint32 0]> (encryptedVotes b)) b) i cs b
  = set_encryptedVotes
      (insert_all i ((fun _ => FHE.asEuint32 0) <$> cs) (encryptedVotes b)) b.
Proof.
  revert i b. induction cs as [|c cs IH]; intros i b; simpl.
  - by destruct b.
  - rewrite IH. by destruct b.
Qed.

(** ** What an accepted call does *)

Lemma require_Success (c : bool) (msg : string) (u : unit) :
  require c msg = Success u -> c = true.
Proof. by destruct c. Qed.

Lemma checked_add_Success (a b r : Z) :
  checked_add a b = Success r -> r = a + b /\ a + b <= MAX_UINT256.
Proof.
  unfold checked_add. destruct (a + b <=? MAX_UINT256) eqn:E; [|done].
  intros [= <-]. split; [done | lia].
Qed.

Lemma checked_mul_Success (a b r : Z) :
  checked_mul a b = Success r -> r = a * b /\ a * b <= MAX_UINT256.
Proof.
  unfold checked_mul. destruct (a * b <=? MAX_UINT256) eqn:E; [|done].
  intros [= <-]. split; [done | lia].
Qed.

Lemma bind_Success {A B : Type} (m : Result A) (k : A -> Result B) (r : B) :
  (m ≫= k) = Success r -> exists a, m = Success a /\ k a = Success r.
Proof. destruct m as [a|f]; simpl; [eauto | done]. Qed.

Ltac inv_bind H :=
  let a := fresh "a" in
  let Ha := fresh "Ha" in
  apply bind_Success in H; destruct H as (a & Ha & H).

Lemma createBallot_Success env s t cs d id s' ev :
  createBallot env s t cs d = Success (id, s', ev) ->
  2 <= len cs <= 10 /\ 0 < d /\
  ballotCounter s + 1 <= MAX_UINT256 /\
  timestamp env + d * 60 <= MAX_UINT256 /\
  id = ballotCounter s /\
  s' = storeBallot (mkState (ballotCounter s + 1) (ballots s)) id
         (created (timestamp env) (sender env) t cs d (ballotAt s id)) /\
  ev = [BallotCreated id t (sender env) (timestamp env + d * 60)].
Proof.
  unfold createBallot. intros H.
  inv_bind H. apply require_Success in Ha.
  inv_bind H. apply require_Success in Ha0.
  inv_bind H. apply require_Success in Ha1.
  inv_bind H. apply checked_add_Success in Ha2 as [-> ?].
  inv_bind H. apply checked_mul_Success in Ha2 as [-> ?].
  inv_bind H. apply checked_add_Success in Ha2 as [-> ?].
  rewrite for_each_candidates, for_each_encryptedVotes in H.
  injection H as <- <- <-.
  repeat split; try lia; try done.
Qed.

Lemma vote_Success env s b k r :
  vote env s b k = Success r ->
  b < ballotCounter s /\
  isActive (ballotAt s b) = true /\
  timestamp env < endTime (ballotAt s b) /\
  hasVotedOf (ballotAt s b) (sender env) = false /\
  k < len (candidates (ballotAt s b)) /\
  totalVotes (ballotAt s b) + 1 <= MAX_UINT256 /\
  r = (storeBallot s b (credited k (sender env) (ballotAt s b)),
       [VoteCast b (sender env)]).
Proof.
  unfold vote, ballotExists, ballotActive, hasNotVoted. intros H.
  inv_bind H. apply require_Success in Ha.
  inv_bind H. inv_bind Ha0. apply require_Success in Ha0, Ha1.
  inv_bind H. apply require_Success in Ha2.
  inv_bind H. apply require_Success in Ha3.
  inv_bind H. apply checked_add_Success in Ha4 as [-> ?].
  injection H as <-.
  apply negb_true_iff in Ha2.
  repeat split; try lia; done.
Qed.

Lemma voteEncrypted_Success iv env s b h p r :
  voteEncrypted iv env s b h p = Success r ->
  b < ballotCounter s /\
  isActive (ballotAt s b) = true /\
  timestamp env < endTime (ballotAt s b) /\
  hasVotedOf (ballotAt s b) (sender env) = false /\
  iv (sender env) h p = true /\
  totalVotes (ballotAt s b) + 1 <= MAX_UINT256 /\
  r = (storeBallot s b (credited 0 (sender env) (ballotAt s b)),
       [VoteCast b (sender env)]).
Proof.
  unfold voteEncrypted, ballotExists, ballotActive, hasNotVoted, fromExternal.
  intros H.
  inv_bind H. apply require_Success in Ha.
  inv_bind H. inv_bind Ha0. apply require_Success in Ha0, Ha1.
  inv_bind H. apply require_Success in Ha2.
  inv_bind H. destruct (iv (sender env) h p) eqn:Hiv; [|done].
  inv_bind H. apply checked_add_Success in Ha4 as [-> ?].
  injection H as <-.
  apply negb_true_iff in Ha2.
  repeat split; try lia; done.
Qed.

Lemma setResults_Success env s b rs r :
  setResults env s b rs = Success r ->
  b < ballotCounter s /\
  endTime (ballotAt s b) <= timestamp env /\
  resultsRevealed (ballotAt s b) = false /\
  len rs = len (candidates (ballotAt s b)) /\
  r = (storeBallot s b (revealedWith rs (ballotAt s b)), [ResultsRevealed b rs]).
Proof.
  unfold setResults, ballotExists, ballotEnded. intros H.
  inv_bind H. apply require_Success in Ha.
  inv_bind H. apply require_Success in Ha0.
  inv_bind H. apply require_Success in Ha1.
  inv_bind H. apply require_Success in Ha2.
  rewrite for_each_finalResults in H. injection H as <-.
  apply negb_true_iff in Ha1.
  repeat split; try lia; done.
Qed.

(** ** Storage reads after a write *)

Lemma ballotAt_store_eq s b x : ballotAt (storeBallot s b x) b = x.
Proof. unfold ballotAt, storeBallot; simpl. by rewrite lookup_insert_eq. Qed.

Lemma ballotAt_store_ne s b b' x :
  b <> b' -> ballotAt (storeBallot s b x) b' = ballotAt s b'.
Proof.
  intros Hne. unfold ballotAt, storeBallot; simpl. by rewrite lookup_insert_ne.
Qed.

Lemma ballotAt_counter c s b : ballotAt (mkState c (ballots s)) b = ballotAt s b.
Proof. done. Qed.

Lemma ballotAt_fresh s id : ballots s !! id = None -> ballotAt s id = zeroBallot.
Proof. unfold ballotAt. by intros ->. Qed.

Lemma hasVotedOf_credited i v x w :
  hasVotedOf (credited i v x) w = if decide (v = w) then true else hasVotedOf x w.
Proof.
  unfold hasVotedOf, credited; simpl. case_decide as Hvw.
  - subst. by rewrite lookup_insert_eq.
  - by rewrite lookup_insert_ne.
Qed.

Lemma encryptedVoteOf_credited i v x j :
  encryptedVoteOf (credited i v x) j =
  if decide (i = j) then FHE.add (encryptedVoteOf x i) (FHE.asEuint32 1)
  else encryptedVoteOf x j.
Proof.
  unfold encryptedVoteOf at 1. unfold credited; simpl. case_decide as Hij.
  - subst. by rewrite lookup_insert_eq.
  - by rewrite lookup_insert_ne.
Qed.

Lemma finalResultOf_revealedWith rs x i :
  finalResultOf (revealedWith rs x) i =
  if decide (0 <= i < len rs) then uint32 (default 0 (rs !! Z.to_nat i))
  else finalResultOf x i.
Proof.
  unfold finalResultOf, revealedWith; simpl. rewrite lookup_insert_all.
  unfold len. rewrite length_fmap, Z.add_0_l, Z.sub_0_r.
  case_decide as Hi; [|done].
  rewrite list_lookup_fmap.
  destruct (rs !! Z.to_nat i) eqn:E; [done|].
  apply lookup_ge_None in E. lia.
Qed.

Lemma encryptedVoteOf_created now cr t cs d old i :
  encryptedVoteOf (created now cr t cs d old) i =
  if decide (0 <= i < len cs) then FHE.asEuint32 0 else encryptedVoteOf old i.
Proof.
  unfold encryptedVoteOf, created; simpl. rewrite lookup_insert_all.
  unfold len. rewrite length_fmap, Z.add_0_l, Z.sub_0_r.
  case_decide as Hi; [|done].
  rewrite list_lookup_fmap.
  destruct (cs !! Z.to_nat i) eqn:E; [done|].
  apply lookup_ge_None in E. lia.
Qed.

(** ** Every transaction is one of the transitions *)

Lemma step_transition iv s env c : transition s env c (step iv s env c).
Proof.
  unfold step, call. destruct c as [t cs d|b k|b h p|b rs].
  - destruct (createBallot env s t cs d) as [[[id s'] ev]|f] eqn:E; simpl;
      [|apply tr_revert].
    apply createBallot_Success in E as (? & ? & ? & ? & -> & -> & ->).
    by apply tr_create.
  - destruct (vote env s b k) as [r|f] eqn:E; [|apply tr_revert].
    apply vote_Success in E as (? & ? & ? & ? & ? & ? & ->). simpl.
    by apply tr_vote.
  - destruct (voteEncrypted iv env s b h p) as [r|f] eqn:E; [|apply tr_revert].
    apply voteEncrypted_Success in E as (? & ? & ? & ? & ? & ? & ->). simpl.
    by apply tr_voteEncrypted.
  - destruct (setResults env s b rs) as [r|f] eqn:E; [|apply tr_revert].
    apply setResults_Success in E as (? & ? & ? & ? & ->). simpl.
    by apply tr_setResults.
Qed.

(** ** Existing ballots only move forward *)

Lemma evolves_refl x : evolves x x.
Proof. by repeat split. Qed.

Lemma evolves_trans x y z : evolves x y -> evolves y z -> evolves x z.
Proof.
  intros (? & ? & ? & ? & ? & ? & ?) (? & ? & ? & ? & ? & ? & ?).
  repeat split; try congruence; auto.
Qed.

Lemma evolves_credited i v x : evolves x (credited i v x).
Proof.
  repeat split; try done. intros w Hw. rewrite hasVotedOf_credited.
  by case_decide.
Qed.

Lemma evolves_revealedWith rs x : evolves x (revealedWith rs x).
Proof. by repeat split. Qed.

Lemma transition_evolves s env c s' b :
  transition s env c s' -> b < ballotCounter s ->
  ballotCounter s <= ballotCounter s' /\ evolves (ballotAt s b) (ballotAt s' b).
Proof.
  intros Htr Hb. destruct Htr; simpl.
  - split; [lia | apply evolves_refl].
  - split; [lia|]. rewrite ballotAt_store_ne by lia. apply evolves_refl.
  - split; [lia|]. destruct (decide (b0 = b)) as [->|Hne].
    + rewrite ballotAt_store_eq. apply evolves_credited.
    + rewrite ballotAt_store_ne by done. apply evolves_refl.
  - split; [lia|]. destruct (decide (b0 = b)) as [->|Hne].
    + rewrite ballotAt_store_eq. apply evolves_credited.
    + rewrite ballotAt_store_ne by done. apply evolves_refl.
  - split; [lia|]. destruct (decide (b0 = b)) as [->|Hne].
    + rewrite ballotAt_store_eq. apply evolves_revealedWith.
    + rewrite ballotAt_store_ne by done. apply evolves_refl.
Qed.

Lemma run_evolves iv txs s b :
  b < ballotCounter s ->
  ballotCounter s <= ballotCounter (run iv s txs) /\
  evolves (ballotAt s b) (ballotAt (run iv s txs) b).
Proof.
  revert s. induction txs as [|[env c] txs IH]; intros s Hb; simpl.
  - split; [lia | apply evolves_refl].
  - destruct (transition_evolves s env c _ b (step_transition iv s env c) Hb)
      as [Hc He].
    destruct (IH (step iv s env c)) as [Hc' He']; [lia|].
    split; [lia | by eapply evolves_trans].
Qed.

(** ** Well-formedness of reachable states *)

Lemma transition_wf s env c s' :
  transition s env c s' -> wf_state s -> wf_state s'.
Proof.
  intros Htr (Hc & Hfresh & Hex). destruct Htr; simpl.
  - done.
  - split; [simpl; lia|]. split.
    + intros id Hid. simpl in *. rewrite lookup_insert_ne by lia.
      apply Hfresh. lia.
    + simpl. intros b Hb. destruct (decide (b = ballotCounter s)) as [->|Hne].
      * rewrite ballotAt_store_eq. simpl.
        rewrite (ballotAt_fresh s) by (apply Hfresh; lia). simpl. done.
      * rewrite ballotAt_store_ne by done. apply Hex. lia.
  - split; [done|]. split.
    + intros id Hid. simpl in *. rewrite lookup_insert_ne by lia. by apply Hfresh.
    + simpl. intros b' Hb'. destruct (decide (b = b')) as [->|Hne].
      * rewrite ballotAt_store_eq. simpl. by apply Hex.
      * rewrite ballotAt_store_ne by done. by apply Hex.
  - split; [done|]. split.
    + intros id Hid. simpl in *. rewrite lookup_insert_ne by lia. by apply Hfresh.
    + simpl. intros b' Hb'. destruct (decide (b = b')) as [->|Hne].
      * rewrite ballotAt_store_eq. simpl. by apply Hex.
      * rewrite ballotAt_store_ne by done. by apply Hex.
  - split; [done|]. split.
    + intros id Hid. simpl in *. rewrite lookup_insert_ne by lia. by apply Hfresh.
    + simpl. intros b' Hb'. destruct (decide (b = b')) as [->|Hne].
      * rewrite ballotAt_store_eq. simpl. by apply Hex.
      * rewrite ballotAt_store_ne by done. by apply Hex.
Qed.

Lemma initState_wf : wf_state initState.
Proof.
  split; [unfold MAX_UINT256; simpl; lia|]. split; [done|].
  simpl. intros b Hb. lia.
Qed.

Lemma reachable_by_wf iv policy s t : reachable_by iv policy s t -> wf_state s.
Proof.
  induction 1 as [t Ht | s t env c Hr IH Hle Henv Hc Hp].
  - apply initState_wf.
  - eapply transition_wf; [apply step_transition | exact IH].
Qed.

(** ** createBallot *)

Lemma createBallot_accepts env s t cs d :
  2 <= len cs <= 10 -> 0 < d -> 0 <= timestamp env ->
  ballotCounter s + 1 <= MAX_UINT256 ->
  timestamp env + d * 60 <= MAX_UINT256 ->
  createBallot env s t cs d =
  Success (ballotCounter s,
           storeBallot (mkState (ballotCounter s + 1) (ballots s)) (ballotCounter s)
             (created (timestamp env) (sender env) t cs d (ballotAt s (ballotCounter s))),
           [BallotCreated (ballotCounter s) t (sender env) (timestamp env + d * 60)]).
Proof.
  intros Hlen Hd Ht Hc He. unfold createBallot, require, checked_add, checked_mul.
  rewrite (proj2 (Z.leb_le 2 (len cs))) by lia.
  rewrite (proj2 (Z.leb_le (len cs) 10)) by lia.
  rewrite (proj2 (Z.ltb_lt 0 d)) by lia. simpl.
  rewrite (proj2 (Z.leb_le (ballotCounter s + 1) MAX_UINT256)) by lia. simpl.
  rewrite (proj2 (Z.leb_le (d * 60) MAX_UINT256)) by lia. simpl.
  rewrite (proj2 (Z.leb_le (timestamp env + d * 60) MAX_UINT256)) by lia. simpl.
  by rewrite for_each_candidates, for_each_encryptedVotes.
Qed.

(** C5 (as amended). [createBallot] reverts with a validation error, and
    leaves the storage unchanged, whenever there are fewer than 2 or more than
    10 candidates or the duration is not positive. Otherwise, when neither
    [ballotCounter + 1] nor [now + durationMinutes * 60] exceeds [2^256 - 1],
    it succeeds: it returns the prior [ballotCounter] as the id, increments the
    counter, writes [endTime = now + durationMinutes * 60], [isActive = true],
    [resultsRevealed = false], [totalVotes = 0], the creator and the title,
    appends the candidates, sets one counter per candidate to encrypted zero,
    touches no other ballot and emits [BallotCreated]. When one of the two sums
    overflows it reverts with an arithmetic panic instead. *)
Theorem createBallot_spec iv env s t cs d :
  0 <= timestamp env ->
  (len cs < 2 \/ 10 < len cs \/ d <= 0 ->
     exists f, createBallot env s t cs d = Fail f /\ ValidationError f /\
               step iv s env (CreateBallot t cs d) = s) /\
  (2 <= len cs <= 10 -> 0 < d ->
     ballotCounter s + 1 <= MAX_UINT256 ->
     timestamp env + d * 60 <= MAX_UINT256 ->
     let id := ballotCounter s in
     let s' := step iv s env (CreateBallot t cs d) in
     createBallot env s t cs d =
       Success (id, s', [BallotCreated id t (sender env) (timestamp env + d * 60)]) /\
     ballotCounter s' = id + 1 /\
     endTime (ballotAt s' id) = timestamp env + d * 60 /\
     isActive (ballotAt s' id) = true /\
     resultsRevealed (ballotAt s' id) = false /\
     totalVotes (ballotAt s' id) = 0 /\
     creator (ballotAt s' id) = sender env /\
     title (ballotAt s' id) = t /\
     candidates (ballotAt s' id) = candidates (ballotAt s id) ++ cs /\
     (forall i, 0 <= i < len cs ->
        encryptedVoteOf (ballotAt s' id) i = FHE.asEuint32 0 /\
        FHE.decrypt (encryptedVoteOf (ballotAt s' id) i) = 0) /\
     (forall b, b <> id -> ballotAt s' b = ballotAt s b)) /\
  (2 <= len cs <= 10 -> 0 < d ->
     MAX_UINT256 < ballotCounter s + 1 \/ MAX_UINT256 < timestamp env + d * 60 ->
     createBallot env s t cs d = Fail (Panic 17) /\
     step iv s env (CreateBallot t cs d) = s).
Proof.
  intros Ht. split; [|split].
  - intros Hbad.
    assert (exists f, createBallot env s t cs d = Fail f /\ ValidationError f)
      as (f & Hf & Hv).
    { unfold createBallot, require, ValidationError.
      destruct (2 <=? len cs) eqn:E1; simpl; [|eauto].
      destruct (len cs <=? 10) eqn:E2; simpl; [|eauto 6].
      destruct (0 <? d) eqn:E3; simpl; [|eauto 7].
      lia. }
    exists f. repeat split; try done.
    unfold step, call. by rewrite Hf.
  - intros Hlen Hd Hc He id s'.
    pose proof (createBallot_accepts env s t cs d Hlen Hd Ht Hc He) as Hok.
    assert (s' = storeBallot (mkState (ballotCounter s + 1) (ballots s)) id
                   (created (timestamp env) (sender env) t cs d (ballotAt s id)))
      as Hs' by (unfold s', step, call; by rewrite Hok).
    rewrite Hok, Hs'. rewrite ballotAt_store_eq. repeat split.
    + rewrite encryptedVoteOf_created. by rewrite decide_True.
    + rewrite encryptedVoteOf_created. by rewrite decide_True.
    + intros b Hb. by rewrite ballotAt_store_ne.
  - intros Hlen Hd Hov.
    assert (createBallot env s t cs d = Fail (Panic 17)) as Hf.
    { unfold createBallot, require, checked_add, checked_mul.
      rewrite (proj2 (Z.leb_le 2 (len cs))) by lia.
      rewrite (proj2 (Z.leb_le (len cs) 10)) by lia.
      rewrite (proj2 (Z.ltb_lt 0 d)) by lia. simpl.
      destruct (ballotCounter s + 1 <=? MAX_UINT256) eqn:E1; simpl; [|done].
      destruct (d * 60 <=? MAX_UINT256) eqn:E2; simpl; [|done].
      destruct (timestamp env + d * 60 <=? MAX_UINT256) eqn:E3; simpl; [|done].
      lia. }
    split; [done|]. unfold step, call. by rewrite Hf.
Qed.

(** C5, as stated, fails: with two candidates and a positive duration of
    [2^256 - 1] minutes the call does not succeed; the multiplication by 60
    overflows and the transaction reverts with a panic, which is not a
    validation error. *)
Lemma createBallot_overflow_counterexample :
  2 <= len ["Alice"; "Bob"] <= 10 /\ 0 < MAX_UINT256 /\ is_uint256 MAX_UINT256 /\
  createBallot (mkEnv 1000 Scenario.alice) initState "Election" ["Alice"; "Bob"]
               MAX_UINT256 = Fail (Panic 17) /\
  ~ ValidationError (Panic 17).
Proof.
  vm_compute. repeat split; try done.
  intros H. destruct H as [H|[H|[H|H]]]; discriminate.
Qed.

Lemma createBallot_spec_witness :
  ballotCounter Scenario.s1 = 1 /\ endTime (ballotAt Scenario.s1 0) = 4600 /\
  isActive (ballotAt Scenario.s1 0) = true /\
  resultsRevealed (ballotAt Scenario.s1 0) = false /\
  totalVotes (ballotAt Scenario.s1 0) = 0.
Proof.
  destruct (createBallot_spec acceptAll (mkEnv 1000 Scenario.alice) initState
              "Election" ["Alice"; "Bob"; "Charlie"] 60) as (_ & Hok & _).
  { simpl. lia. }
  destruct Hok as (_ & Hc & He & Ha & Hr & Ht & _).
  - vm_compute. split; discriminate.
  - lia.
  - vm_compute. discriminate.
  - vm_compute. discriminate.
  - repeat split; assumption.
Defined.

(** ** One vote per address *)

Lemma vote_rejects_voted env s b k :
  b < ballotCounter s ->
  isActive (ballotAt s b) = true ->
  hasVotedOf (ballotAt s b) (sender env) = true ->
  vote env s b k =
  Fail (if timestamp env <? endTime (ballotAt s b)
        then DuplicateVoteError else Revert "Ballot has ended").
Proof.
  intros Hb Ha Hv. unfold vote, ballotExists, ballotActive, hasNotVoted, require.
  rewrite (proj2 (Z.ltb_lt b (ballotCounter s))) by done. simpl.
  rewrite Ha. simpl.
  destruct (timestamp env <? endTime (ballotAt s b)); simpl; [|done].
  by rewrite Hv.
Qed.

Lemma voteEncrypted_rejects_voted iv env s b h p :
  b < ballotCounter s ->
  isActive (ballotAt s b) = true ->
  hasVotedOf (ballotAt s b) (sender env) = true ->
  voteEncrypted iv env s b h p =
  Fail (if timestamp env <? endTime (ballotAt s b)
        then DuplicateVoteError else Revert "Ballot has ended").
Proof.
  intros Hb Ha Hv.
  unfold voteEncrypted, ballotExists, ballotActive, hasNotVoted, require.
  rewrite (proj2 (Z.ltb_lt b (ballotCounter s))) by done. simpl.
  rewrite Ha. simpl.
  destruct (timestamp env <? endTime (ballotAt s b)); simpl; [|done].
  by rewrite Hv.
Qed.

Lemma isVoteBy_inv b v env c :
  isVoteBy b v (env, c) = true ->
  sender env = v /\ ((exists k, c = Vote b k) \/ (exists h p, c = VoteEncrypted b h p)).
Proof.
  unfold isVoteBy; simpl. destruct c as [| b' k | b' h p |]; try done.
  - intros [Hb Hv]%andb_true_iff.
    apply bool_decide_eq_true in Hb, Hv. subst. eauto.
  - intros [Hb Hv]%andb_true_iff.
    apply bool_decide_eq_true in Hb, Hv. subst. eauto 6.
Qed.

(** An accepted vote by [v] on [b] finds [v] unrecorded and records it. *)
Lemma accepted_vote_records iv b v env c s :
  isVoteBy b v (env, c) = true -> accepted iv s env c = true ->
  b < ballotCounter s /\
  isActive (ballotAt s b) = true /\
  hasVotedOf (ballotAt s b) v = false /\
  hasVotedOf (ballotAt (step iv s env c) b) v = true /\
  totalVotes (ballotAt (step iv s env c) b) = totalVotes (ballotAt s b) + 1.
Proof.
  intros Hv Hacc. apply isVoteBy_inv in Hv as [<- [[k ->]|(h & p & ->)]];
    unfold accepted, step, call in *.
  - destruct (vote env s b k) as [r|f] eqn:E; [|done].
    apply vote_Success in E as (? & ? & ? & ? & ? & ? & ->). simpl.
    rewrite ballotAt_store_eq, hasVotedOf_credited, decide_True by done.
    done.
  - destruct (voteEncrypted iv env s b h p) as [r|f] eqn:E; [|done].
    apply voteEncrypted_Success in E as (? & ? & ? & ? & ? & ? & ->). simpl.
    rewrite ballotAt_store_eq, hasVotedOf_credited, decide_True by done.
    done.
Qed.

(** The participation record is write-once, for every slot of the mapping. *)
Lemma transition_hasVoted s env c s' b v :
  transition s env c s' ->
  hasVotedOf (ballotAt s b) v = true -> hasVotedOf (ballotAt s' b) v = true.
Proof.
  intros Htr Hv. destruct Htr; simpl; try done.
  - destruct (decide (ballotCounter s = b)) as [<-|Hne].
    + by rewrite ballotAt_store_eq.
    + by rewrite ballotAt_store_ne.
  - destruct (decide (b0 = b)) as [->|Hne].
    + rewrite ballotAt_store_eq, hasVotedOf_credited. by case_decide.
    + by rewrite ballotAt_store_ne.
  - destruct (decide (b0 = b)) as [->|Hne].
    + rewrite ballotAt_store_eq, hasVotedOf_credited. by case_decide.
    + by rewrite ballotAt_store_ne.
  - destruct (decide (b0 = b)) as [->|Hne].
    + by rewrite ballotAt_store_eq.
    + by rewrite ballotAt_store_ne.
Qed.

Lemma acceptedVotes_voted iv b v txs s :
  hasVotedOf (ballotAt s b) v = true -> acceptedVotes iv b v s txs = O.
Proof.
  revert s. induction txs as [|[env c] txs IH]; intros s Hv; simpl; [done|].
  rewrite IH by (eapply transition_hasVoted; [apply step_transition | done]).
  destruct (isVoteBy b v (env, c)) eqn:E1; simpl; [|done].
  destruct (accepted iv s env c) eqn:E2; simpl; [|done].
  destruct (accepted_vote_records iv b v env c s E1 E2) as (_ & _ & Hf & _).
  congruence.
Qed.

Lemma acceptedVotes_le_1 iv b v txs s : (acceptedVotes iv b v s txs <= 1)%nat.
Proof.
  revert s. induction txs as [|[env c] txs IH]; intros s; simpl; [lia|].
  destruct (isVoteBy b v (env, c)) eqn:E1; simpl; [|apply IH].
  destruct (accepted iv s env c) eqn:E2; simpl; [|apply IH].
  destruct (accepted_vote_records iv b v env c s E1 E2) as (_ & _ & _ & Hv & _).
  rewrite acceptedVotes_voted by done. lia.
Qed.

(** C2 (as amended). In every run at most one [vote]/[voteEncrypted] call by
    voter [v] on ballot [b] is accepted. After an accepted one, every later
    attempt by [v] on [b] reverts and leaves the whole storage (so
    [totalVotes] too) unchanged; the revert reason is "Already voted" while the
    block time is before the ballot's [endTime], and "Ballot has ended" from
    [endTime] on, because the activity check precedes the duplicate check. *)
Theorem one_vote_per_voter iv s b v :
  (forall txs, (acceptedVotes iv b v s txs <= 1)%nat) /\
  (forall env0 c0 txs env c,
     isVoteBy b v (env0, c0) = true -> accepted iv s env0 c0 = true ->
     isVoteBy b v (env, c) = true ->
     let s' := run iv (step iv s env0 c0) txs in
     call iv env s' c =
       Fail (if timestamp env <? endTime (ballotAt s b)
             then DuplicateVoteError else Revert "Ballot has ended") /\
     step iv s' env c = s' /\
     totalVotes (ballotAt (step iv s' env c) b) = totalVotes (ballotAt s' b)).
Proof.
  split; [intros txs; apply acceptedVotes_le_1|].
  intros env0 c0 txs env c Hv0 Hacc Hv s'.
  destruct (accepted_vote_records iv b v env0 c0 s Hv0 Hacc)
    as (Hb & Hact & _ & Hrec & _).
  destruct (transition_evolves s env0 c0 _ b (step_transition iv s env0 c0) Hb)
    as [Hc1 Hev1].
  destruct (run_evolves iv txs (step iv s env0 c0) b) as [Hc2 Hev2]; [lia|].
  fold s' in Hc2, Hev2.
  pose proof (evolves_trans _ _ _ Hev1 Hev2) as (_ & _ & Hend & Hactive & _ & _ & _).
  destruct Hev2 as (_ & _ & _ & _ & _ & _ & Hvoted).
  specialize (Hvoted v Hrec).
  assert (call iv env s' c =
          Fail (if timestamp env <? endTime (ballotAt s b)
                then DuplicateVoteError else Revert "Ballot has ended")) as Hfail.
  { apply isVoteBy_inv in Hv as [<- [[k ->]|(h & p & ->)]]; simpl.
    - rewrite vote_rejects_voted; [by rewrite Hend | lia | congruence | done].
    - rewrite voteEncrypted_rejects_voted; [by rewrite Hend | lia | congruence | done]. }
  assert (step iv s' env c = s') as Hstep by (unfold step; by rewrite Hfail).
  by rewrite Hstep.
Qed.

(** C2, as stated, fails: a second attempt made once the ballot has ended is
    rejected with "Ballot has ended", not with the duplicate-vote reason. *)
Lemma duplicate_vote_after_end_counterexample :
  accepted acceptAll Scenario.s1 (mkEnv 1010 Scenario.bob) (Vote 0 1) = true /\
  Scenario.s2 = step acceptAll Scenario.s1 (mkEnv 1010 Scenario.bob) (Vote 0 1) /\
  call acceptAll (mkEnv 4600 Scenario.bob) Scenario.s2 (Vote 0 1)
    = Fail (Revert "Ballot has ended") /\
  Revert "Ballot has ended" <> DuplicateVoteError.
Proof. vm_compute. repeat split; done. Qed.

Lemma one_vote_per_voter_witness :
  call acceptAll (mkEnv 1200 Scenario.bob) Scenario.s2 (VoteEncrypted 0 7 [])
    = Fail DuplicateVoteError /\
  step acceptAll Scenario.s2 (mkEnv 1200 Scenario.bob) (VoteEncrypted 0 7 [])
    = Scenario.s2.
Proof.
  destruct (one_vote_per_voter acceptAll Scenario.s1 0 Scenario.bob) as [_ H].
  destruct (H (mkEnv 1010 Scenario.bob) (Vote 0 1) []
              (mkEnv 1200 Scenario.bob) (VoteEncrypted 0 7 []))
    as (Hc & Hs & _).
  - vm_compute. reflexivity.
  - vm_compute. reflexivity.
  - vm_compute. reflexivity.
  - split; [exact Hc | exact Hs].
Defined.

(** ** The reveal commit *)

Lemma setResults_rejects_early env s b rs :
  b < ballotCounter s -> timestamp env < endTime (ballotAt s b) ->
  setResults env s b rs = Fail StillActiveError.
Proof.
  intros Hb Ht. unfold setResults, ballotExists, ballotEnded, require.
  rewrite (proj2 (Z.ltb_lt b (ballotCounter s))) by done. simpl.
  by rewrite (proj2 (Z.leb_gt (endTime (ballotAt s b)) (timestamp env))) by done.
Qed.

Lemma setResults_rejects_revealed env s b rs :
  b < ballotCounter s -> endTime (ballotAt s b) <= timestamp env ->
  resultsRevealed (ballotAt s b) = true ->
  setResults env s b rs = Fail AlreadyRevealedError.
Proof.
  intros Hb Ht Hr. unfold setResults, ballotExists, ballotEnded, require.
  rewrite (proj2 (Z.ltb_lt b (ballotCounter s))) by done. simpl.
  rewrite (proj2 (Z.leb_le (endTime (ballotAt s b)) (timestamp env))) by done.
  simpl. by rewrite Hr.
Qed.

Lemma setResults_accepts env s b rs :
  b < ballotCounter s -> endTime (ballotAt s b) <= timestamp env ->
  resultsRevealed (ballotAt s b) = false ->
  len rs = len (candidates (ballotAt s b)) ->
  setResults env s b rs =
  Success (storeBallot s b (revealedWith rs (ballotAt s b)), [ResultsRevealed b rs]).
Proof.
  intros Hb Ht Hr Hlen. unfold setResults, ballotExists, ballotEnded, require.
  rewrite (proj2 (Z.ltb_lt b (ballotCounter s))) by done. simpl.
  rewrite (proj2 (Z.leb_le (endTime (ballotAt s b)) (timestamp env))) by done.
  simpl. rewrite Hr. simpl.
  rewrite (proj2 (Z.eqb_eq (len rs) (len (candidates (ballotAt s b))))) by done.
  simpl. by rewrite for_each_finalResults.
Qed.

(** The flag of a slot goes from false to true only in an accepted
    [setResults] on that ballot, which needs the ballot to exist and to have
    ended. *)
Lemma transition_flip s env c s' b :
  transition s env c s' ->
  resultsRevealed (ballotAt s b) = false ->
  resultsRevealed (ballotAt s' b) = true ->
  (exists rs, c = SetResults b rs) /\ b < ballotCounter s /\
  endTime (ballotAt s b) <= timestamp env.
Proof.
  intros Htr Hf Ht. destruct Htr; simpl in *.
  - congruence.
  - destruct (decide (ballotCounter s = b)) as [<-|Hne].
    + by rewrite ballotAt_store_eq in Ht.
    + rewrite ballotAt_store_ne in Ht by done.
      rewrite ballotAt_counter in Ht. congruence.
  - destruct (decide (b0 = b)) as [->|Hne].
    + rewrite ballotAt_store_eq in Ht. simpl in Ht. congruence.
    + rewrite ballotAt_store_ne in Ht by done. congruence.
  - destruct (decide (b0 = b)) as [->|Hne].
    + rewrite ballotAt_store_eq in Ht. simpl in Ht. congruence.
    + rewrite ballotAt_store_ne in Ht by done. congruence.
  - destruct (decide (b0 = b)) as [->|Hne].
    + eauto.
    + rewrite ballotAt_store_ne in Ht by done. congruence.
Qed.

Lemma flips_revealed iv b txs s :
  b < ballotCounter s -> resultsRevealed (ballotAt s b) = true ->
  flips iv b s txs = O.
Proof.
  revert s. induction txs as [|[env c] txs IH]; intros s Hb Hr; simpl; [done|].
  destruct (transition_evolves s env c _ b (step_transition iv s env c) Hb)
    as (Hc & _ & _ & _ & _ & _ & Hmono & _).
  rewrite IH by (lia || auto). by rewrite Hr.
Qed.

Lemma flips_existing iv b txs s :
  b < ballotCounter s -> (flips iv b s txs <= 1)%nat.
Proof.
  revert s. induction txs as [|[env c] txs IH]; intros s Hb; simpl; [lia|].
  destruct (transition_evolves s env c _ b (step_transition iv s env c) Hb)
    as (Hc & _).
  destruct (resultsRevealed (ballotAt s b)) eqn:E0; simpl.
  - apply IH. lia.
  - destruct (resultsRevealed (ballotAt (step iv s env c) b)) eqn:E1.
    + rewrite flips_revealed by (lia || done). lia.
    + apply IH. lia.
Qed.

Lemma transition_counter s env c s' :
  transition s env c s' ->
  ballotCounter s' = ballotCounter s \/ ballotCounter s' = ballotCounter s + 1.
Proof. destruct 1; simpl; auto. Qed.

Lemma flips_le_1 iv b txs s : (flips iv b s txs <= 1)%nat.
Proof.
  revert s. induction txs as [|[env c] txs IH]; intros s; simpl; [lia|].
  destruct (decide (b < ballotCounter s)) as [Hb|Hb].
  - apply (flips_existing iv b ((env, c) :: txs) s Hb).
  - destruct (negb (resultsRevealed (ballotAt s b))
              && resultsRevealed (ballotAt (step iv s env c) b)) eqn:E.
    + apply andb_true_iff in E as [E0 E1]. apply negb_true_iff in E0.
      destruct (transition_flip s env c _ b (step_transition iv s env c) E0 E1)
        as (_ & Hlt & _).
      lia.
    + apply IH.
Qed.

(** An accepted reveal is one false-to-true step of the flag. *)
Lemma accepted_reveal_flips iv s b env rs :
  accepted iv s env (SetResults b rs) = true ->
  b < ballotCounter s /\
  endTime (ballotAt s b) <= timestamp env /\
  resultsRevealed (ballotAt s b) = false /\
  resultsRevealed (ballotAt (step iv s env (SetResults b rs)) b) = true.
Proof.
  unfold accepted, step, call.
  destruct (setResults env s b rs) as [r|f] eqn:E; [intros _|done].
  apply setResults_Success in E as (Hb & Hend & Hr & _ & ->). simpl.
  by rewrite ballotAt_store_eq.
Qed.

Lemma later_reveal_rejected iv s b env0 rs0 txs env rs :
  accepted iv s env0 (SetResults b rs0) = true ->
  timestamp env0 <= timestamp env ->
  setResults env (run iv (step iv s env0 (SetResults b rs0)) txs) b rs
  = Fail AlreadyRevealedError.
Proof.
  intros Hacc Hle.
  destruct (accepted_reveal_flips iv s b env0 rs0 Hacc) as (Hb & Hend & _ & Hrev).
  destruct (transition_evolves s env0 (SetResults b rs0) _ b
              (step_transition iv s env0 (SetResults b rs0)) Hb)
    as (Hc1 & _ & _ & He1 & _).
  destruct (run_evolves iv txs (step iv s env0 (SetResults b rs0)) b)
    as (Hc2 & _ & _ & He2 & _ & _ & Hr2 & _); [lia|].
  apply setResults_rejects_revealed; [lia | lia | auto].
Qed.

(** C3. For an existing ballot [b]: a [setResults] sent while the block time
    is before [endTime] reverts with "Ballot is still active"; an accepted
    [setResults] takes [resultsRevealed] from false to true, and after it every
    [setResults] on [b] in a later block (block times never decrease) reverts
    with "Results already revealed" and leaves the storage, so
    [finalResults], unchanged; a transaction that takes [resultsRevealed] from
    false to true is a [setResults] on [b] at a time [>= endTime]; the flag
    never goes back to false; and in every run the flag goes from false to
    true at most once. *)
Theorem reveal_once iv s b :
  b < ballotCounter s ->
  (forall env rs,
     timestamp env < endTime (ballotAt s b) ->
     call iv env s (SetResults b rs) = Fail StillActiveError /\
     step iv s env (SetResults b rs) = s) /\
  (forall env0 rs0 txs env rs,
     accepted iv s env0 (SetResults b rs0) = true ->
     timestamp env0 <= timestamp env ->
     let s' := run iv (step iv s env0 (SetResults b rs0)) txs in
     resultsRevealed (ballotAt s b) = false /\
     resultsRevealed (ballotAt (step iv s env0 (SetResults b rs0)) b) = true /\
     call iv env s' (SetResults b rs) = Fail AlreadyRevealedError /\
     step iv s' env (SetResults b rs) = s' /\
     finalResults (ballotAt (step iv s' env (SetResults b rs)) b)
       = finalResults (ballotAt s' b)) /\
  (forall env c,
     resultsRevealed (ballotAt s b) = false ->
     resultsRevealed (ballotAt (step iv s env c) b) = true ->
     (exists rs, c = SetResults b rs) /\ endTime (ballotAt s b) <= timestamp env) /\
  (forall env c,
     resultsRevealed (ballotAt s b) = true ->
     resultsRevealed (ballotAt (step iv s env c) b) = true) /\
  (forall txs, (flips iv b s txs <= 1)%nat).
Proof.
  intros Hb. split; [|split; [|split; [|split]]].
  - intros env rs Ht.
    assert (call iv env s (SetResults b rs) = Fail StillActiveError) as Hfail
      by (by apply setResults_rejects_early).
    split; [done|]. unfold step. by rewrite Hfail.
  - intros env0 rs0 txs env rs Hacc Hle s'.
    destruct (accepted_reveal_flips iv s b env0 rs0 Hacc) as (_ & _ & Hf & Ht).
    assert (call iv env s' (SetResults b rs) = Fail AlreadyRevealedError) as Hfail
      by (by apply later_reveal_rejected).
    assert (step iv s' env (SetResults b rs) = s') as Hstep
      by (unfold step; by rewrite Hfail).
    rewrite Hstep. done.
  - intros env c Hf Ht.
    destruct (transition_flip s env c _ b (step_transition iv s env c) Hf Ht)
      as (Hc & _ & Hend).
    done.
  - intros env c Hr.
    destruct (transition_evolves s env c _ b (step_transition iv s env c) Hb)
      as (_ & _ & _ & _ & _ & _ & Hmono & _).
    auto.
  - intros txs. apply flips_le_1.
Qed.

Lemma reveal_once_witness :
  call acceptAll (mkEnv 1010 Scenario.alice) Scenario.s2 (SetResults 0 [0; 1; 0])
    = Fail StillActiveError /\
  call acceptAll (mkEnv 5000 Scenario.bob) Scenario.s3 (SetResults 0 [9; 9; 9])
    = Fail AlreadyRevealedError /\
  Nat.le (flips acceptAll 0 Scenario.s2 Scenario.revealTwice) 1.
Proof.
  destruct (reveal_once acceptAll Scenario.s2 0) as (H1 & H2 & _ & _ & H5).
  { vm_compute. reflexivity. }
  split; [|split].
  - apply H1. vm_compute. reflexivity.
  - destruct (H2 (mkEnv 4600 Scenario.alice) [0; 1; 0] []
                (mkEnv 5000 Scenario.bob) [9; 9; 9]) as (_ & _ & Hfail & _).
    + vm_compute. reflexivity.
    + vm_compute. discriminate.
    + exact Hfail.
  - apply H5.
Defined.

(** ** Reading the results *)

Lemma seqZ_succ (i : Z) (n : nat) :
  seqZ i (Z.of_nat (S n)) = i :: seqZ (i + 1) (Z.of_nat n).
Proof.
  rewrite seqZ_cons by lia. f_equal. f_equal; lia.
Qed.

Lemma array_set_in_range (a : list Z) (k : nat) (v : Z) :
  (k < length a)%nat -> array_set a (Z.of_nat k) v = Success (<[k := v]> a).
Proof.
  intros Hk. unfold array_set, len.
  rewrite (proj2 (Z.leb_le 0 (Z.of_nat k))) by lia.
  rewrite (proj2 (Z.ltb_lt (Z.of_nat k) (Z.of_nat (length a)))) by lia.
  simpl. by rewrite Nat2Z.id.
Qed.

(** The copy loop of [getResults] fills the array from left to right. *)
Lemma copy_loop (f : Z -> Z) (n k : nat) (a : list Z) :
  length a = (k + n)%nat ->
  for_range (fun i results => array_set results i (f i)) (Z.of_nat k) n a
  = Success (take k a ++ (f <$> seqZ (Z.of_nat k) (Z.of_nat n))).
Proof.
  revert k a. induction n as [|n IH]; intros k a Hlen.
  - simpl. rewrite take_ge by lia. by rewrite app_nil_r.
  - cbn [for_range]. rewrite array_set_in_range by lia. simpl.
    replace (Z.of_nat k + 1) with (Z.of_nat (S k)) by lia.
    rewrite IH by (rewrite length_insert; lia).
    rewrite seqZ_succ. rewrite fmap_cons.
    replace (Z.of_nat k + 1) with (Z.of_nat (S k)) by lia.
    rewrite (take_S_r _ k (f (Z.of_nat k)))
      by (apply list_lookup_insert_eq; lia).
    rewrite take_insert_ge by lia.
    by rewrite <- app_assoc.
Qed.

Lemma getResults_revealed s b :
  b < ballotCounter s -> resultsRevealed (ballotAt s b) = true ->
  getResults s b = Success (finalResultOf (ballotAt s b) <$> candidateIndices (ballotAt s b)).
Proof.
  intros Hb Hr. unfold getResults, ballotExists, require.
  rewrite (proj2 (Z.ltb_lt b (ballotCounter s))) by done. simpl.
  rewrite Hr. simpl.
  rewrite (copy_loop (finalResultOf (ballotAt s b))
             (length (candidates (ballotAt s b))) 0)
    by (by rewrite length_replicate).
  done.
Qed.

(** C8. For an existing ballot [b], [getResults(b)] reverts with "Results
    not yet revealed" in every state where [resultsRevealed] is false; in
    every state where it is true the call succeeds and returns the stored
    [finalResults] of the candidate indices in order, an array as long as the
    candidate list. *)
Theorem getResults_spec s b :
  b < ballotCounter s ->
  (resultsRevealed (ballotAt s b) = false ->
     getResults s b = Fail NotRevealedError) /\
  (resultsRevealed (ballotAt s b) = true ->
     exists results,
       getResults s b = Success results /\
       length results = length (candidates (ballotAt s b)) /\
       forall i, (i < length (candidates (ballotAt s b)))%nat ->
         results !! i = Some (finalResultOf (ballotAt s b) (Z.of_nat i))).
Proof.
  intros Hb. split; intros Hr.
  - unfold getResults, ballotExists, require.
    rewrite (proj2 (Z.ltb_lt b (ballotCounter s))) by done. simpl.
    by rewrite Hr.
  - eexists. split; [by apply getResults_revealed|]. split.
    + unfold candidateIndices, len. rewrite length_fmap, length_seqZ. lia.
    + intros i Hi. unfold candidateIndices, len.
      rewrite list_lookup_fmap, lookup_seqZ_lt by lia. simpl.
      by rewrite Z.add_0_l.
Qed.

Lemma getResults_spec_witness :
  getResults Scenario.s2 0 = Fail NotRevealedError /\
  exists results, getResults Scenario.s3 0 = Success results /\ length results = 3%nat.
Proof.
  split.
  - apply (getResults_spec Scenario.s2 0); vm_compute; reflexivity.
  - destruct (getResults_spec Scenario.s3 0) as [_ H]; [vm_compute; reflexivity|].
    destruct H as (results & Hres & Hlen & _); [vm_compute; reflexivity|].
    exists results. split; [exact Hres | exact Hlen].
Defined.

(** ** Truncation of the committed counts *)

Lemma revealed_results_read rs x :
  len rs = len (candidates x) ->
  finalResultOf (revealedWith rs x) <$> candidateIndices (revealedWith rs x)
  = uint32 <$> rs.
Proof.
  intros Hlen. unfold candidateIndices. simpl candidates. rewrite <- Hlen.
  apply list_eq. intros i. rewrite !list_lookup_fmap.
  destruct (decide (i < length rs)%nat) as [Hi|Hi].
  - rewrite lookup_seqZ_lt by (unfold len; lia). simpl.
    rewrite finalResultOf_revealedWith, decide_True by (unfold len; lia).
    rewrite Z.add_0_l, Nat2Z.id.
    destruct (lookup_lt_is_Some_2 rs i Hi) as [r Hr]. by rewrite Hr.
  - rewrite lookup_seqZ_ge by (unfold len; lia).
    by rewrite lookup_ge_None_2 by lia.
Qed.

Lemma uint32_small r : 0 <= r < 2 ^ 32 -> uint32 r = r.
Proof. intros Hr. unfold uint32. by apply Z.mod_small. Qed.

Lemma uint32_large r : 2 ^ 32 <= r -> uint32 r <> r.
Proof.
  intros Hr. unfold uint32.
  pose proof (Z.mod_pos_bound r (2 ^ 32)). lia.
Qed.

(** C10. An accepted [setResults] emits [ResultsRevealed] with the array as
    supplied, and stores each count truncated to 32 bits: [getResults]
    afterwards returns [results[i] mod 2^32] at every index, which differs
    from the value in the event for every supplied count [>= 2^32]. *)
Theorem setResults_truncates env s b rs s' ev :
  setResults env s b rs = Success (s', ev) ->
  ev = [ResultsRevealed b rs] /\
  getResults s' b = Success (uint32 <$> rs) /\
  (forall i r, rs !! i = Some r ->
     finalResultOf (ballotAt s' b) (Z.of_nat i) = r mod 2 ^ 32 /\
     (uint32 <$> rs) !! i = Some (r mod 2 ^ 32) /\
     (2 ^ 32 <= r -> r mod 2 ^ 32 <> r)).
Proof.
  intros H. apply setResults_Success in H as (Hb & Hend & Hr & Hlen & [= -> ->]).
  split; [done|]. split.
  - rewrite getResults_revealed; rewrite ?ballotAt_store_eq; try done.
    by rewrite revealed_results_read.
  - intros i r Hi. rewrite ballotAt_store_eq. repeat split.
    + rewrite finalResultOf_revealedWith.
      pose proof (lookup_lt_Some _ _ _ Hi).
      rewrite decide_True by (unfold len; lia).
      by rewrite Nat2Z.id, Hi.
    + by rewrite list_lookup_fmap, Hi.
    + apply uint32_large.
Qed.

Lemma setResults_truncates_witness :
  getResults
    (step acceptAll Scenario.s2 (mkEnv 4600 Scenario.bob)
       (SetResults 0 [2 ^ 32 + 5; 1; 0])) 0
  = Success [5; 1; 0].
Proof.
  destruct (setResults_truncates (mkEnv 4600 Scenario.bob) Scenario.s2 0
              [2 ^ 32 + 5; 1; 0]
              (step acceptAll Scenario.s2 (mkEnv 4600 Scenario.bob)
                 (SetResults 0 [2 ^ 32 + 5; 1; 0]))
              [ResultsRevealed 0 [2 ^ 32 + 5; 1; 0]]) as (_ & H & _).
  - vm_compute. reflexivity.
  - rewrite H. vm_compute. reflexivity.
Defined.

(** ** Who may commit results *)

(** C4 (as amended). [setResults] has no caller check. In every state, with
    every argument and at every block time, the outcome of the call (the new
    storage and the event, or the failure) is the same for any two callers,
    whether the call is accepted or rejected. On an existing, ended, not yet
    revealed ballot, with an array as long as the candidate list, the call
    succeeds for every caller, with one and the same new state; it sets
    [resultsRevealed] and stores each supplied value reduced modulo [2^32]
    (the supplied value itself when it is below [2^32]). *)
Theorem setResults_no_authorization t s b rs :
  (forall caller1 caller2,
     setResults (mkEnv t caller1) s b rs = setResults (mkEnv t caller2) s b rs /\
     (forall iv,
        call iv (mkEnv t caller1) s (SetResults b rs)
        = call iv (mkEnv t caller2) s (SetResults b rs)) /\
     (forall iv,
        step iv s (mkEnv t caller1) (SetResults b rs)
        = step iv s (mkEnv t caller2) (SetResults b rs))) /\
  (b < ballotCounter s ->
   endTime (ballotAt s b) <= t ->
   resultsRevealed (ballotAt s b) = false ->
   len rs = len (candidates (ballotAt s b)) ->
   exists s',
     (forall caller,
        setResults (mkEnv t caller) s b rs = Success (s', [ResultsRevealed b rs])) /\
     resultsRevealed (ballotAt s' b) = true /\
     (forall i r, rs !! i = Some r ->
        finalResultOf (ballotAt s' b) (Z.of_nat i) = r mod 2 ^ 32 /\
        (0 <= r < 2 ^ 32 -> finalResultOf (ballotAt s' b) (Z.of_nat i) = r))).
Proof.
  split.
  - intros caller1 caller2. repeat split; reflexivity.
  - intros Hb Hend Hr Hlen. eexists. split.
    { intros caller. by apply setResults_accepts. }
    rewrite ballotAt_store_eq. split; [done|].
    intros i r Hi.
    assert (finalResultOf (revealedWith rs (ballotAt s b)) (Z.of_nat i) = r mod 2 ^ 32)
      as Hfin.
    { rewrite finalResultOf_revealedWith.
      pose proof (lookup_lt_Some _ _ _ Hi).
      rewrite decide_True by (unfold len; lia).
      by rewrite Nat2Z.id, Hi. }
    split; [done|]. intros Hsmall. rewrite Hfin. by apply Z.mod_small.
Qed.

(** C4, as stated, fails for counts of [2^32] and more: the call succeeds but
    what is stored is not the supplied value. *)
Lemma setResults_stores_supplied_counterexample :
  accepted acceptAll Scenario.s2 (mkEnv 4600 Scenario.bob)
           (SetResults 0 [2 ^ 32; 1; 0]) = true /\
  finalResultOf
    (ballotAt (step acceptAll Scenario.s2 (mkEnv 4600 Scenario.bob)
                 (SetResults 0 [2 ^ 32; 1; 0])) 0) 0 = 0 /\
  finalResultOf
    (ballotAt (step acceptAll Scenario.s2 (mkEnv 4600 Scenario.bob)
                 (SetResults 0 [2 ^ 32; 1; 0])) 0) 0 <> 2 ^ 32.
Proof. vm_compute. repeat split; done. Qed.

Lemma setResults_no_authorization_witness :
  setResults (mkEnv 4600 Scenario.bob) Scenario.s2 0 [7; 8; 9]
  = setResults (mkEnv 4600 Scenario.alice) Scenario.s2 0 [7; 8; 9] /\
  exists s',
    setResults (mkEnv 4600 Scenario.bob) Scenario.s2 0 [7; 8; 9]
    = Success (s', [ResultsRevealed 0 [7; 8; 9]]) /\
    resultsRevealed (ballotAt s' 0) = true /\
    finalResultOf (ballotAt s' 0) 1 = 8.
Proof.
  destruct (setResults_no_authorization 4600 Scenario.s2 0 [7; 8; 9])
    as [Hsame Hok].
  split; [exact (proj1 (Hsame Scenario.bob Scenario.alice))|].
  destruct Hok as (s' & H1 & H2 & H3).
  - vm_compute. reflexivity.
  - vm_compute. discriminate.
  - vm_compute. reflexivity.
  - vm_compute. reflexivity.
  - exists s'. split; [exact (H1 Scenario.bob)|]. split; [exact H2|].
    apply (H3 1%nat 8 (eq_refl (Some 8))). lia.
Defined.

(** ** The confidential vote path *)

Lemma decrypt_add_one h :
  FHE.decrypt (FHE.add h (FHE.asEuint32 1)) = (FHE.decrypt h + 1) mod 2 ^ 32.
Proof. done. Qed.

(** C7. An accepted [voteEncrypted] increments, by one, the encrypted counter
    of candidate index 0 and no other counter, whatever encrypted index and
    proof were supplied (any other accepted input gives the same storage);
    [hasVoted], [totalVotes] and the event are those of the plaintext [vote]
    path. *)
Theorem voteEncrypted_credits_first iv env s b h p s' ev :
  voteEncrypted iv env s b h p = Success (s', ev) ->
  encryptedVoteOf (ballotAt s' b) 0
    = FHE.add (encryptedVoteOf (ballotAt s b) 0) (FHE.asEuint32 1) /\
  FHE.decrypt (encryptedVoteOf (ballotAt s' b) 0)
    = (FHE.decrypt (encryptedVoteOf (ballotAt s b) 0) + 1) mod 2 ^ 32 /\
  (forall i, i <> 0 ->
     encryptedVoteOf (ballotAt s' b) i = encryptedVoteOf (ballotAt s b) i) /\
  (forall h' p', iv (sender env) h' p' = true ->
     voteEncrypted iv env s b h' p' = Success (s', ev)) /\
  hasVotedOf (ballotAt s' b) (sender env) = true /\
  totalVotes (ballotAt s' b) = totalVotes (ballotAt s b) + 1 /\
  ev = [VoteCast b (sender env)] /\
  (forall k s'' ev', vote env s b k = Success (s'', ev') ->
     hasVoted (ballotAt s'' b) = hasVoted (ballotAt s' b) /\
     totalVotes (ballotAt s'' b) = totalVotes (ballotAt s' b) /\
     ev' = ev).
Proof.
  intros H.
  apply voteEncrypted_Success in H
    as (Hb & Hact & Hend & Hnv & Hiv & Htot & [= -> ->]).
  rewrite ballotAt_store_eq. repeat split.
  - rewrite encryptedVoteOf_credited. by rewrite decide_True.
  - rewrite encryptedVoteOf_credited. by rewrite decide_True.
  - intros i Hi. rewrite encryptedVoteOf_credited. by rewrite decide_False.
  - intros h' p' Hiv'.
    unfold voteEncrypted, ballotExists, ballotActive, hasNotVoted, fromExternal,
      require, checked_add.
    rewrite (proj2 (Z.ltb_lt b (ballotCounter s))) by done. simpl.
    rewrite Hact. simpl.
    rewrite (proj2 (Z.ltb_lt (timestamp env) (endTime (ballotAt s b)))) by done.
    simpl. rewrite Hnv. simpl. rewrite Hiv'. simpl.
    by rewrite (proj2 (Z.leb_le (totalVotes (ballotAt s b) + 1) MAX_UINT256)) by done.
  - rewrite hasVotedOf_credited. by rewrite decide_True.
  - apply vote_Success in H as (_ & _ & _ & _ & _ & _ & [= -> ->]).
    by rewrite ballotAt_store_eq.
  - apply vote_Success in H as (_ & _ & _ & _ & _ & _ & [= -> ->]).
    by rewrite ballotAt_store_eq.
  - by apply vote_Success in H as (_ & _ & _ & _ & _ & _ & [= -> ->]).
Qed.

Lemma voteEncrypted_credits_first_witness :
  FHE.decrypt
    (encryptedVoteOf
       (ballotAt (step acceptAll Scenario.s1 (mkEnv 1010 Scenario.bob)
                    (VoteEncrypted 0 2 [])) 0) 0) = 1.
Proof.
  destruct (voteEncrypted_credits_first acceptAll (mkEnv 1010 Scenario.bob)
              Scenario.s1 0 2 []
              (step acceptAll Scenario.s1 (mkEnv 1010 Scenario.bob)
                 (VoteEncrypted 0 2 []))
              [VoteCast 0 Scenario.bob]) as (_ & H & _).
  - vm_compute. reflexivity.
  - rewrite H. vm_compute. reflexivity.
Defined.

(** ** The decryption loop of the reveal task *)

Lemma getEncryptedVoteCount_in_range s b i :
  b < ballotCounter s -> i < len (candidates (ballotAt s b)) ->
  getEncryptedVoteCount s b i = Success (encryptedVoteOf (ballotAt s b) i).
Proof.
  intros Hb Hi. unfold getEncryptedVoteCount, ballotExists, require.
  rewrite (proj2 (Z.ltb_lt b (ballotCounter s))) by done. simpl.
  by rewrite (proj2 (Z.ltb_lt i (len (candidates (ballotAt s b))))) by done.
Qed.

Lemma revealOne_pushes fails s b i results :
  b < ballotCounter s -> i < len (candidates (ballotAt s b)) ->
  RevealTask.revealOne fails s b i results
  = Success (results ++ [revealedCount fails (ballotAt s b) i]).
Proof.
  intros Hb Hi. unfold RevealTask.revealOne, RevealTask.userDecryptEuint.
  rewrite getEncryptedVoteCount_in_range by done. simpl.
  unfold revealedCount.
  destruct (encryptedVoteOf (ballotAt s b) i); simpl; by destruct (fails i).
Qed.

Lemma reveal_loop fails s b (n : nat) (i : Z) (acc : list Z) :
  b < ballotCounter s -> i + Z.of_nat n <= len (candidates (ballotAt s b)) ->
  for_range (RevealTask.revealOne fails s b) i n acc
  = Success (acc ++ (revealedCount fails (ballotAt s b) <$> seqZ i (Z.of_nat n))).
Proof.
  intros Hb. revert i acc. induction n as [|n IH]; intros i acc Hi.
  - simpl. by rewrite app_nil_r.
  - cbn [for_range]. rewrite revealOne_pushes by (done || lia). simpl.
    rewrite IH by lia. rewrite seqZ_succ, fmap_cons.
    by rewrite <- app_assoc.
Qed.

(** ** The list views *)

Lemma count_loop (cond : Z -> bool) (n : nat) (i c : Z) :
  for_range (fun i c => Success (if cond i then c + 1 else c)) i n c
  = Success (c + len (filter (fun j => cond j = true) (seqZ i (Z.of_nat n)))).
Proof.
  revert i c. induction n as [|n IH]; intros i c.
  - simpl. unfold len; simpl. by rewrite Z.add_0_r.
  - cbn [for_range]. simpl. rewrite IH, seqZ_succ.
    destruct (cond i) eqn:E.
    + rewrite filter_cons_True by done. unfold len; simpl length.
      f_equal. lia.
    + rewrite filter_cons_False by congruence. done.
Qed.

Lemma array_set_next (pre : list Z) (m : nat) (v : Z) :
  array_set (pre ++ replicate (S m) 0) (len pre) v
  = Success ((pre ++ [v]) ++ replicate m 0).
Proof.
  unfold len. rewrite array_set_in_range
    by (rewrite length_app, length_replicate; lia).
  replace (length pre) with (length pre + 0)%nat at 1 by lia.
  rewrite insert_app_r. simpl. by rewrite <- app_assoc.
Qed.

Lemma fill_loop (cond : Z -> bool) (n : nat) (i : Z) (pre : list Z) (m : nat) :
  length (filter (fun j => cond j = true) (seqZ i (Z.of_nat n))) = m ->
  for_range
    (fun i '(ids, index) =>
       if cond i
       then ids' ← array_set ids index i; Success (ids', index + 1)
       else Success (ids, index))
    i n (pre ++ replicate m 0, len pre)
  = Success (pre ++ filter (fun j => cond j = true) (seqZ i (Z.of_nat n)),
             len pre + Z.of_nat m).
Proof.
  revert i pre m. induction n as [|n IH]; intros i pre m Hm.
  - simpl in *. subst m. simpl. by rewrite Z.add_0_r.
  - cbn [for_range]. rewrite seqZ_succ in *. destruct (cond i) eqn:E.
    + rewrite filter_cons_True in * by done. simpl in Hm.
      destruct m as [|m]; [done|]. injection Hm as Hm.
      rewrite array_set_next. simpl.
      replace (len pre + 1) with (len (pre ++ [i]))
        by (unfold len; rewrite length_app; simpl; lia).
      rewrite IH by done. rewrite <- app_assoc. simpl.
      f_equal. f_equal. unfold len. rewrite length_app. simpl. lia.
    + rewrite filter_cons_False in * by congruence. simpl.
      by rewrite IH.
Qed.

Lemma bind_Success_l {A B : Type} (a : A) (k : A -> Result B) :
  (Success a ≫= k) = k a.
Proof. done. Qed.

Lemma collectIds_filter (cond : Z -> bool) s :
  0 <= ballotCounter s ->
  collectIds cond s = Success (filter (fun j => cond j = true) (ballotIds s)).
Proof.
  intros Hc. unfold collectIds, ballotIds.
  rewrite count_loop, bind_Success_l.
  rewrite Z.add_0_l. unfold len at 1. rewrite Nat2Z.id.
  pose proof (fill_loop cond (Z.to_nat (ballotCounter s)) 0 [] _ eq_refl) as Hfill.
  change (len (@nil Z)) with 0 in Hfill. cbn [app] in Hfill.
  rewrite Hfill, bind_Success_l. cbn [fst]. by rewrite Z2Nat.id.
Qed.

Lemma getActiveBallots_collect env s :
  getActiveBallots env s = collectIds (activeAt env s) s.
Proof. reflexivity. Qed.

Lemma getEndedBallots_collect env s :
  getEndedBallots env s = collectIds (endedAt env s) s.
Proof. reflexivity. Qed.

(** C6. In every reachable state and at every block time both list views
    succeed, return ids of existing ballots without repetition, and every id
    in [0, ballotCounter) is in exactly one of the two lists. *)
Theorem ballot_lists_partition iv s t env :
  reachable iv s t ->
  exists active ended,
    getActiveBallots env s = Success active /\
    getEndedBallots env s = Success ended /\
    NoDup active /\ NoDup ended /\
    (forall i, i ∈ active \/ i ∈ ended -> 0 <= i < ballotCounter s) /\
    (forall i, 0 <= i < ballotCounter s ->
       (i ∈ active /\ (i ∉ ended)) \/ ((i ∉ active) /\ i ∈ ended)).
Proof.
  intros Hreach. apply reachable_by_wf in Hreach as (Hc & _ & Hex).
  exists (filter (fun j => activeAt env s j = true) (ballotIds s)),
         (filter (fun j => endedAt env s j = true) (ballotIds s)).
  rewrite getActiveBallots_collect, getEndedBallots_collect.
  rewrite !collectIds_filter by lia.
  split; [done|]. split; [done|].
  split; [apply NoDup_filter, NoDup_seqZ|].
  split; [apply NoDup_filter, NoDup_seqZ|].
  split.
  - intros i [Hi|Hi]; apply list_elem_of_filter in Hi as [_ Hi];
      apply elem_of_seqZ in Hi; lia.
  - intros i Hi. destruct (Hex i Hi) as [Hact _].
    assert (i ∈ ballotIds s) as Hin by (apply elem_of_seqZ; lia).
    rewrite !list_elem_of_filter. unfold activeAt, endedAt. rewrite Hact. simpl.
    destruct (decide (timestamp env < endTime (ballotAt s i))) as [Hlt|Hge].
    + left. split.
      * split; [by apply Z.ltb_lt | done].
      * intros [Hle _]. apply Z.leb_le in Hle. lia.
    + right. split.
      * intros [Hlt _]. apply Z.ltb_lt in Hlt. lia.
      * split; [apply Z.leb_le; lia | done].
Qed.

(** ** Reachability of the concrete runs *)

Lemma reachable_by_weaken iv (P Q : State -> Env -> Call -> Prop) s t :
  (forall s env c, P s env c -> Q s env c) ->
  reachable_by iv P s t -> reachable_by iv Q s t.
Proof.
  intros HPQ. induction 1 as [t Ht | s t env c Hr IH Hle Henv Hc Hp].
  - by apply reach_deploy.
  - apply reach_tx with (t := t); auto.
Qed.

Lemma is_uint256_small x : 0 <= x < 2 ^ 64 -> is_uint256 x.
Proof. unfold is_uint256, MAX_UINT256. intros Hx. split; [lia|]. simpl in *. lia. Qed.

Lemma scenario_s1_reachable : reachable_by acceptAll honestReveal Scenario.s1 1000.
Proof.
  apply (reach_tx acceptAll honestReveal initState 1000
           (mkEnv 1000 Scenario.alice)
           (CreateBallot "Election" ["Alice"; "Bob"; "Charlie"] 60)).
  - apply reach_deploy. apply is_uint256_small. simpl. lia.
  - simpl. lia.
  - split; [apply is_uint256_small|]; simpl; unfold Scenario.alice; lia.
  - apply is_uint256_small. simpl. lia.
  - exact I.
Qed.

Lemma scenario_s2_reachable : reachable_by acceptAll honestReveal Scenario.s2 1010.
Proof.
  apply (reach_tx acceptAll honestReveal Scenario.s1 1000
           (mkEnv 1010 Scenario.bob) (Vote 0 1)).
  - apply scenario_s1_reachable.
  - simpl. lia.
  - split; [apply is_uint256_small|]; simpl; unfold Scenario.bob; lia.
  - split; [apply is_uint256_small; simpl; lia | lia].
  - exact I.
Qed.

Lemma scenario_s3_reachable : reachable_by acceptAll honestReveal Scenario.s3 4600.
Proof.
  apply (reach_tx acceptAll honestReveal Scenario.s2 1010
           (mkEnv 4600 Scenario.alice) (SetResults 0 [0; 1; 0])).
  - apply scenario_s2_reachable.
  - simpl. lia.
  - split; [apply is_uint256_small|]; simpl; unfold Scenario.alice; lia.
  - split; [apply is_uint256_small; simpl; lia|].
    repeat constructor; apply is_uint256_small; simpl; lia.
  - vm_compute. reflexivity.
Qed.

Lemma scenario_s3_forged_reachable : reachable acceptAll Scenario.s3_forged 4600.
Proof.
  apply (reach_tx acceptAll (fun _ _ _ => True) Scenario.s2 1010
           (mkEnv 4600 Scenario.bob) (SetResults 0 [5; 5; 5])).
  - apply (reachable_by_weaken acceptAll honestReveal); [done|].
    apply scenario_s2_reachable.
  - simpl. lia.
  - split; [apply is_uint256_small|]; simpl; unfold Scenario.bob; lia.
  - split; [apply is_uint256_small; simpl; lia|].
    repeat constructor; apply is_uint256_small; simpl; lia.
  - exact I.
Qed.

Lemma ballot_lists_partition_witness :
  exists active ended,
    getActiveBallots (mkEnv 2000 Scenario.alice) Scenario.s2 = Success active /\
    getEndedBallots (mkEnv 2000 Scenario.alice) Scenario.s2 = Success ended /\
    NoDup active /\ NoDup ended.
Proof.
  destruct (ballot_lists_partition acceptAll Scenario.s2 1010
              (mkEnv 2000 Scenario.alice))
    as (active & ended & Ha & He & Hna & Hne & _).
  - apply (reachable_by_weaken acceptAll honestReveal); [done|].
    apply scenario_s2_reachable.
  - exists active, ended. repeat split; assumption.
Defined.

(** ** The tally against [totalVotes] *)

Lemma sumZ_cons (a : Z) (l : list Z) : sumZ (a :: l) = a + sumZ l.
Proof. done. Qed.

Lemma sumZ_ext (f g : Z -> Z) (l : list Z) :
  (forall i, i ∈ l -> f i = g i) -> sumZ (f <$> l) = sumZ (g <$> l).
Proof.
  induction l as [|a l IH]; intros H; [done|].
  rewrite !fmap_cons, !sumZ_cons.
  rewrite H by apply list_elem_of_here.
  rewrite IH; [done|]. intros i Hi. apply H. by apply list_elem_of_further.
Qed.

Lemma sumZ_point (f g : Z -> Z) (k : Z) (l : list Z) :
  NoDup l -> k ∈ l -> (forall i, i <> k -> g i = f i) ->
  sumZ (g <$> l) = sumZ (f <$> l) + (g k - f k).
Proof.
  intros Hnd Hk Hoff. induction Hnd as [|a l Ha Hnd IH].
  - by apply elem_of_nil in Hk.
  - rewrite !fmap_cons, !sumZ_cons.
    destruct (decide (a = k)) as [->|Hne].
    + rewrite (sumZ_ext g f l); [lia|].
      intros i Hi. apply Hoff. intros ->. done.
    + apply elem_of_cons in Hk as [->|Hk]; [done|].
      rewrite IH by done. rewrite Hoff by done. lia.
Qed.

Lemma sumZ_nonneg (f : Z -> Z) (l : list Z) :
  (forall i, 0 <= f i) -> 0 <= sumZ (f <$> l).
Proof.
  intros H. induction l as [|a l IH]; [done|].
  rewrite fmap_cons, sumZ_cons. specialize (H a). lia.
Qed.

Lemma sumZ_zero (f : Z -> Z) (l : list Z) :
  (forall i, i ∈ l -> f i = 0) -> sumZ (f <$> l) = 0.
Proof.
  induction l as [|a l IH]; intros H; [done|].
  rewrite fmap_cons, sumZ_cons.
  rewrite H by apply list_elem_of_here.
  rewrite IH; [done|]. intros i Hi. apply H. by apply list_elem_of_further.
Qed.


Lemma tally_inv_credited t k v x :
  0 <= k < len (candidates x) ->
  resultsRevealed x = false ->
  tally_inv t x -> tally_inv t (credited k v x).
Proof.
  intros Hk Hnr (Hrange & (q & Hq0 & Hq) & _).
  assert (forall i, 0 <= FHE.decrypt (encryptedVoteOf (credited k v x) i) < 2 ^ 32)
    as Hrange'.
  { intros i. rewrite encryptedVoteOf_credited. case_decide; [|apply Hrange].
    rewrite decrypt_add_one. by apply Z.mod_pos_bound. }
  split; [done|]. split.
  - assert (sumCounters (credited k v x)
            = sumCounters x
              + (FHE.decrypt (encryptedVoteOf (credited k v x) k)
                 - FHE.decrypt (encryptedVoteOf x k))) as Hsum.
    { unfold sumCounters, decryptedCounters, candidateIndices.
      change (candidates (credited k v x)) with (candidates x).
      apply (sumZ_point (fun i => FHE.decrypt (encryptedVoteOf x i))
               (fun i => FHE.decrypt (encryptedVoteOf (credited k v x) i)) k).
      - apply NoDup_seqZ.
      - apply elem_of_seqZ. lia.
      - intros i Hi. rewrite encryptedVoteOf_credited. by rewrite decide_False. }
    rewrite encryptedVoteOf_credited, decide_True, decrypt_add_one in Hsum by done.
    change (totalVotes (credited k v x)) with (totalVotes x + 1).
    specialize (Hrange k). change (2 ^ 32) with 4294967296 in *.
    destruct (decide (FHE.decrypt (encryptedVoteOf x k) + 1 < 4294967296)) as [Hlt|Hge].
    + exists q. rewrite Z.mod_small in Hsum by lia. split; lia.
    + exists (q + 1).
      replace (FHE.decrypt (encryptedVoteOf x k) + 1) with 4294967296 in Hsum by lia.
      rewrite Z.mod_same in Hsum by lia. split; lia.
  - change (resultsRevealed (credited k v x)) with (resultsRevealed x).
    congruence.
Qed.

Lemma tally_inv_created now cr t cs d :
  tally_inv now (created now cr t cs d zeroBallot).
Proof.
  assert (forall i,
            FHE.decrypt (encryptedVoteOf (created now cr t cs d zeroBallot) i) = 0)
    as Hzero.
  { intros i. rewrite encryptedVoteOf_created. by case_decide. }
  split; [|split].
  - intros i. rewrite Hzero. done.
  - exists 0. split; [lia|]. unfold sumCounters, decryptedCounters.
    rewrite sumZ_zero; [done|]. intros i _. apply Hzero.
  - done.
Qed.








(** * Further properties of the contract *)

(** ** Ids that were never issued *)

(** X1. In every reachable state the slots of the ids from [ballotCounter]
    on were never written, and every function guarded by [ballotExists]
    rejects such an id with "Ballot does not exist"; the rejected transactions
    leave the storage unchanged. *)
Theorem unissued_ids_rejected iv s t env b :
  reachable iv s t -> ballotCounter s <= b ->
  ballots s !! b = None /\
  (forall k, vote env s b k = Fail NotFoundError /\ step iv s env (Vote b k) = s) /\
  (forall h p, voteEncrypted iv env s b h p = Fail NotFoundError /\
               step iv s env (VoteEncrypted b h p) = s) /\
  (forall rs, setResults env s b rs = Fail NotFoundError /\
              step iv s env (SetResults b rs) = s) /\
  getResults s b = Fail NotFoundError /\
  getBallotInfo env s b = Fail NotFoundError /\
  (forall i, getEncryptedVoteCount s b i = Fail NotFoundError) /\
  (forall v, SecretBallotBox.hasVoted s b v = Fail NotFoundError).
Proof.
  intros Hreach Hb.
  apply reachable_by_wf in Hreach as (_ & Hfresh & _).
  assert ((b <? ballotCounter s) = false) as Hlt by (apply Z.ltb_ge; lia).
  split; [by apply Hfresh|].
  assert (forall k, vote env s b k = Fail NotFoundError) as Hvote.
  { intros k. unfold vote, ballotExists, require. by rewrite Hlt. }
  assert (forall h p, voteEncrypted iv env s b h p = Fail NotFoundError) as Henc.
  { intros h p. unfold voteEncrypted, ballotExists, require. by rewrite Hlt. }
  assert (forall rs, setResults env s b rs = Fail NotFoundError) as Hset.
  { intros rs. unfold setResults, ballotExists, require. by rewrite Hlt. }
  repeat split.
  - apply Hvote.
  - unfold step, call. by rewrite Hvote.
  - apply Henc.
  - unfold step, call. by rewrite Henc.
  - apply Hset.
  - unfold step, call. by rewrite Hset.
  - unfold getResults, ballotExists, require. by rewrite Hlt.
  - unfold getBallotInfo, ballotExists, require. by rewrite Hlt.
  - intros i. unfold getEncryptedVoteCount, ballotExists, require. by rewrite Hlt.
  - intros v. unfold SecretBallotBox.hasVoted, ballotExists, require. by rewrite Hlt.
Qed.

Lemma unissued_ids_rejected_witness :
  vote (mkEnv 1010 Scenario.bob) Scenario.s2 1 0 = Fail NotFoundError /\
  getResults Scenario.s2 1 = Fail NotFoundError.
Proof.
  destruct (unissued_ids_rejected acceptAll Scenario.s2 1010
              (mkEnv 1010 Scenario.bob) 1) as (_ & Hv & _ & _ & Hg & _).
  - apply (reachable_by_weaken acceptAll honestReveal); [done|].
    apply scenario_s2_reachable.
  - vm_compute. discriminate.
  - split; [apply Hv | exact Hg].
Defined.

(** ** What a ballot keeps for life *)

(** X2. Along every run, an existing ballot stays existing and keeps its
    title, candidate list, end time, creator and [isActive] flag: no
    transaction of any caller changes them. *)
Theorem ballot_identity_immutable iv s txs b :
  b < ballotCounter s ->
  b < ballotCounter (run iv s txs) /\
  title (ballotAt (run iv s txs) b) = title (ballotAt s b) /\
  candidates (ballotAt (run iv s txs) b) = candidates (ballotAt s b) /\
  endTime (ballotAt (run iv s txs) b) = endTime (ballotAt s b) /\
  creator (ballotAt (run iv s txs) b) = creator (ballotAt s b) /\
  isActive (ballotAt (run iv s txs) b) = isActive (ballotAt s b).
Proof.
  intros Hb.
  destruct (run_evolves iv txs s b Hb) as (Hc & Ht & Hcs & He & Ha & Hcr & _).
  repeat split; try done. lia.
Qed.

Lemma ballot_identity_immutable_witness :
  candidates (ballotAt Scenario.s3 0) = candidates (ballotAt Scenario.s1 0) /\
  endTime (ballotAt Scenario.s3 0) = endTime (ballotAt Scenario.s1 0).
Proof.
  destruct (ballot_identity_immutable acceptAll Scenario.s1
              [(mkEnv 1010 Scenario.bob, Vote 0 1);
               (mkEnv 4600 Scenario.alice, SetResults 0 [0; 1; 0])] 0)
    as (_ & _ & Hc & He & _).
  - vm_compute. reflexivity.
  - split; [exact Hc | exact He].
Defined.

(** ** Counting accepted transactions *)

Lemma step_counter iv s env c :
  ballotCounter (step iv s env c)
  = ballotCounter s + (if isCreate (env, c) && accepted iv s env c then 1 else 0).
Proof.
  unfold step, accepted, call, isCreate. destruct c as [t cs d|b k|b h p|b rs]; simpl.
  - destruct (createBallot env s t cs d) as [[[id s'] ev]|f] eqn:E; simpl; [|lia].
    by apply createBallot_Success in E as (_ & _ & _ & _ & _ & -> & _).
  - destruct (vote env s b k) as [r|f] eqn:E; [|lia].
    apply vote_Success in E as (_ & _ & _ & _ & _ & _ & ->). simpl. lia.
  - destruct (voteEncrypted iv env s b h p) as [r|f] eqn:E; [|lia].
    apply voteEncrypted_Success in E as (_ & _ & _ & _ & _ & _ & ->). simpl. lia.
  - destruct (setResults env s b rs) as [r|f] eqn:E; [|lia].
    apply setResults_Success in E as (_ & _ & _ & _ & ->). simpl. lia.
Qed.

(** X3. Ids are dense: after any run, [ballotCounter] has grown by exactly
    the number of accepted [createBallot] calls (so, from deployment, it is
    that number), and no other call moves it. *)
Theorem ballotCounter_counts_creates iv txs s :
  ballotCounter (run iv s txs)
  = ballotCounter s + Z.of_nat (countAccepted iv isCreate s txs).
Proof.
  revert s. induction txs as [|[env c] txs IH]; intros s; simpl.
  - lia.
  - rewrite IH, step_counter.
    destruct (isCreate (env, c) && accepted iv s env c); lia.
Qed.

Lemma step_totalVotes iv s env c b :
  b < ballotCounter s ->
  totalVotes (ballotAt (step iv s env c) b)
  = totalVotes (ballotAt s b)
    + (if isVoteOn b (env, c) && accepted iv s env c then 1 else 0).
Proof.
  intros Hb. unfold step, accepted, call, isVoteOn.
  destruct c as [t cs d|b' k|b' h p|b' rs]; simpl.
  - destruct (createBallot env s t cs d) as [[[id s'] ev]|f] eqn:E; simpl; [|lia].
    apply createBallot_Success in E as (_ & _ & _ & _ & -> & -> & _).
    rewrite ballotAt_store_ne by lia. rewrite ballotAt_counter. lia.
  - destruct (vote env s b' k) as [r|f] eqn:E.
    + apply vote_Success in E as (_ & _ & _ & _ & _ & _ & ->). simpl.
      case_bool_decide as Hbb.
      * subst. rewrite ballotAt_store_eq. done.
      * rewrite ballotAt_store_ne by done. simpl. lia.
    + rewrite andb_false_r. lia.
  - destruct (voteEncrypted iv env s b' h p) as [r|f] eqn:E.
    + apply voteEncrypted_Success in E as (_ & _ & _ & _ & _ & _ & ->). simpl.
      case_bool_decide as Hbb.
      * subst. rewrite ballotAt_store_eq. done.
      * rewrite ballotAt_store_ne by done. simpl. lia.
    + rewrite andb_false_r. lia.
  - destruct (setResults env s b' rs) as [r|f] eqn:E; [|lia].
    apply setResults_Success in E as (_ & _ & _ & _ & ->). simpl.
    destruct (decide (b' = b)) as [->|Hne].
    + rewrite ballotAt_store_eq. simpl. lia.
    + rewrite ballotAt_store_ne by done. lia.
Qed.

(** X4. Along every run, [totalVotes] of an existing ballot grows by exactly
    the number of accepted [vote] and [voteEncrypted] calls on that ballot;
    ballot creation, reveals and votes on other ballots leave it alone. *)
Theorem totalVotes_counts_accepted_votes iv txs s b :
  b < ballotCounter s ->
  totalVotes (ballotAt (run iv s txs) b)
  = totalVotes (ballotAt s b) + Z.of_nat (countAccepted iv (isVoteOn b) s txs).
Proof.
  revert s. induction txs as [|[env c] txs IH]; intros s Hb; simpl.
  - lia.
  - rewrite IH.
    + rewrite step_totalVotes by done.
      destruct (isVoteOn b (env, c) && accepted iv s env c); lia.
    + pose proof (step_counter iv s env c).
      destruct (isCreate (env, c) && accepted iv s env c); lia.
Qed.

Lemma totalVotes_counts_accepted_votes_witness :
  totalVotes (ballotAt Scenario.s3 0) = 1.
Proof.
  pose proof (totalVotes_counts_accepted_votes acceptAll
                [(mkEnv 1010 Scenario.bob, Vote 0 1);
                 (mkEnv 4600 Scenario.alice, SetResults 0 [0; 1; 0])]
                Scenario.s1 0) as H.
  assert (0 < ballotCounter Scenario.s1) as Hb by (vm_compute; reflexivity).
  specialize (H Hb). etrans; [exact H|]. vm_compute. reflexivity.
Defined.

Lemma step_hasVoted_exact iv s env c b v :
  hasVotedOf (ballotAt (step iv s env c) b) v
  = hasVotedOf (ballotAt s b) v || (isVoteBy b v (env, c) && accepted iv s env c).
Proof.
  unfold step, accepted, call, isVoteBy.
  destruct c as [t cs d|b' k|b' h p|b' rs]; simpl.
  - rewrite orb_false_r.
    destruct (createBallot env s t cs d) as [[[id s'] ev]|f] eqn:E; simpl; [|done].
    apply createBallot_Success in E as (_ & _ & _ & _ & -> & -> & _).
    destruct (decide (ballotCounter s = b)) as [<-|Hne].
    + by rewrite ballotAt_store_eq.
    + by rewrite ballotAt_store_ne.
  - destruct (vote env s b' k) as [r|f] eqn:E.
    + apply vote_Success in E as (_ & _ & _ & Hnv & _ & _ & ->). simpl.
      rewrite andb_true_r. case_bool_decide as Hbb; simpl.
      * subst. rewrite ballotAt_store_eq, hasVotedOf_credited.
        case_bool_decide; case_decide; try done; [by rewrite orb_true_r|].
        by rewrite orb_false_r.
      * rewrite ballotAt_store_ne by done. by rewrite orb_false_r.
    + by rewrite andb_false_r, orb_false_r.
  - destruct (voteEncrypted iv env s b' h p) as [r|f] eqn:E.
    + apply voteEncrypted_Success in E as (_ & _ & _ & Hnv & _ & _ & ->). simpl.
      rewrite andb_true_r. case_bool_decide as Hbb; simpl.
      * subst. rewrite ballotAt_store_eq, hasVotedOf_credited.
        case_bool_decide; case_decide; try done; [by rewrite orb_true_r|].
        by rewrite orb_false_r.
      * rewrite ballotAt_store_ne by done. by rewrite orb_false_r.
    + by rewrite andb_false_r, orb_false_r.
  - rewrite orb_false_r.
    destruct (setResults env s b' rs) as [r|f] eqn:E; [|done].
    apply setResults_Success in E as (_ & _ & _ & _ & ->). simpl.
    destruct (decide (b' = b)) as [->|Hne].
    + by rewrite ballotAt_store_eq.
    + by rewrite ballotAt_store_ne.
Qed.

Lemma run_hasVoted_exact iv txs s b v :
  hasVotedOf (ballotAt (run iv s txs) b) v
  = hasVotedOf (ballotAt s b) v || Nat.ltb 0 (acceptedVotes iv b v s txs).
Proof.
  revert s. induction txs as [|[env c] txs IH]; intros s; simpl.
  - by rewrite orb_false_r.
  - rewrite IH, step_hasVoted_exact.
    destruct (isVoteBy b v (env, c) && accepted iv s env c); simpl.
    + by rewrite !orb_true_r.
    + by rewrite orb_false_r.
Qed.

(** X5. For a run from deployment and a ballot it has created, the view
    [hasVoted(b, v)] returns true exactly when the run contains an accepted
    [vote] or [voteEncrypted] by [v] on [b]. *)
Theorem hasVoted_iff_voted iv txs b v :
  b < ballotCounter (run iv initState txs) ->
  SecretBallotBox.hasVoted (run iv initState txs) b v
  = Success (Nat.ltb 0 (acceptedVotes iv b v initState txs)).
Proof.
  intros Hb. unfold SecretBallotBox.hasVoted, ballotExists, require.
  rewrite (proj2 (Z.ltb_lt _ _) Hb). simpl.
  by rewrite run_hasVoted_exact.
Qed.

Lemma hasVoted_iff_voted_witness :
  SecretBallotBox.hasVoted Scenario.s2 0 Scenario.bob = Success true /\
  SecretBallotBox.hasVoted Scenario.s2 0 Scenario.alice = Success false.
Proof.
  split.
  - etrans; [apply (hasVoted_iff_voted acceptAll
                      [Scenario.create; (mkEnv 1010 Scenario.bob, Vote 0 1)] 0
                      Scenario.bob); vm_compute; reflexivity|].
    vm_compute. reflexivity.
  - etrans; [apply (hasVoted_iff_voted acceptAll
                      [Scenario.create; (mkEnv 1010 Scenario.bob, Vote 0 1)] 0
                      Scenario.alice); vm_compute; reflexivity|].
    vm_compute. reflexivity.
Defined.

(** ** Participation and tally invariants *)

Lemma voters_inv_credited k v x :
  hasVotedOf x v = false -> voters_inv x -> voters_inv (credited k v x).
Proof.
  intros Hnv [Htot Htrue]. unfold voters_inv, credited; simpl.
  assert (hasVoted x !! v = None) as Hnone.
  { unfold hasVotedOf in Hnv. destruct (hasVoted x !! v) as [val|] eqn:E; [|done].
    rewrite (Htrue v val E) in Hnv. done. }
  split.
  - rewrite map_size_insert_None by done. lia.
  - intros w val. destruct (decide (v = w)) as [->|Hne].
    + rewrite lookup_insert_eq. congruence.
    + rewrite lookup_insert_ne by done. apply Htrue.
Qed.

Lemma reachable_voters iv policy s t :
  reachable_by iv policy s t ->
  forall b, 0 <= b < ballotCounter s -> voters_inv (ballotAt s b).
Proof.
  induction 1 as [t Ht | s t env c Hr IH Hle Henv Hc Hp].
  - simpl. intros b Hb. lia.
  - pose proof (reachable_by_wf _ _ _ _ Hr) as (Hcnt & Hfresh & Hex).
    pose proof (step_transition iv s env c) as Htr.
    destruct Htr; simpl in *.
    + done.
    + intros b Hb. destruct (decide (b = ballotCounter s)) as [->|Hne].
      * rewrite ballotAt_store_eq.
        rewrite (ballotAt_fresh s) by (apply Hfresh; lia).
        split; [done|]. simpl. intros v val Hv. by rewrite lookup_empty in Hv.
      * rewrite ballotAt_store_ne by done. rewrite ballotAt_counter.
        apply IH. lia.
    + intros b' Hb'. destruct (decide (b = b')) as [->|Hne].
      * rewrite ballotAt_store_eq. apply voters_inv_credited; auto.
      * rewrite ballotAt_store_ne by done. auto.
    + intros b' Hb'. destruct (decide (b = b')) as [->|Hne].
      * rewrite ballotAt_store_eq. apply voters_inv_credited; auto.
      * rewrite ballotAt_store_ne by done. auto.
    + intros b' Hb'. destruct (decide (b = b')) as [->|Hne].
      * rewrite ballotAt_store_eq. apply (IH b' Hb').
      * rewrite ballotAt_store_ne by done. auto.
Qed.

(** X6. In every reachable state, [totalVotes] of an existing ballot is the
    number of addresses recorded in its [hasVoted] mapping, and every recorded
    address is recorded as true: an address is never un-recorded and never
    counted twice. *)
Theorem totalVotes_counts_voters iv s t b :
  reachable iv s t -> 0 <= b < ballotCounter s ->
  totalVotes (ballotAt s b) = Z.of_nat (size (hasVoted (ballotAt s b))) /\
  (forall v, hasVotedOf (ballotAt s b) v = true <->
             is_Some (hasVoted (ballotAt s b) !! v)).
Proof.
  intros Hreach Hb.
  destruct (reachable_voters iv _ s t Hreach b Hb) as [Htot Htrue].
  split; [done|]. intros v. unfold hasVotedOf. split.
  - destruct (hasVoted (ballotAt s b) !! v) eqn:E; [eauto | done].
  - intros [val E]. rewrite E. simpl. by apply (Htrue v).
Qed.

Lemma totalVotes_counts_voters_witness :
  totalVotes (ballotAt Scenario.s2 0)
  = Z.of_nat (size (hasVoted (ballotAt Scenario.s2 0))).
Proof.
  apply (totalVotes_counts_voters acceptAll Scenario.s2 1010 0).
  - apply (reachable_by_weaken acceptAll honestReveal); [done|].
    apply scenario_s2_reachable.
  - vm_compute. split; [discriminate | reflexivity].
Defined.

Lemma counter_inv_later t t' x : t <= t' -> counter_inv t x -> counter_inv t' x.
Proof.
  intros Hle (Hrange & Hq & Hrev). split; [done|]. split; [done|].
  intros H. specialize (Hrev H). lia.
Qed.

Lemma counter_inv_credited t k v x :
  0 <= k < len (candidates x) -> resultsRevealed x = false ->
  counter_inv t x -> counter_inv t (credited k v x).
Proof.
  intros Hk Hnr (Hrange & Hq & _).
  assert (tally_inv t x) as Hinv.
  { split; [done|]. split; [done|]. intros H. congruence. }
  destruct (tally_inv_credited t k v x Hk Hnr Hinv) as (Hrange' & Hq' & _).
  split; [done|]. split; [done|].
  change (resultsRevealed (credited k v x)) with (resultsRevealed x). congruence.
Qed.

Lemma reachable_counters iv policy s t :
  reachable_by iv policy s t ->
  forall b, 0 <= b < ballotCounter s -> counter_inv t (ballotAt s b).
Proof.
  induction 1 as [t Ht | s t env c Hr IH Hle Henv Hc Hp].
  - simpl. intros b Hb. lia.
  - pose proof (reachable_by_wf _ _ _ _ Hr) as (Hcnt & Hfresh & Hex).
    pose proof (step_transition iv s env c) as Htr.
    destruct Htr; simpl in *.
    + intros b Hb. apply (counter_inv_later t); [done | by apply IH].
    + intros b Hb. destruct (decide (b = ballotCounter s)) as [->|Hne].
      * rewrite ballotAt_store_eq.
        rewrite (ballotAt_fresh s) by (apply Hfresh; lia).
        destruct (tally_inv_created (timestamp env) (sender env) t0 cs d)
          as (Hrange & Hq & _).
        split; [done|]. split; [done|]. done.
      * rewrite ballotAt_store_ne by done. rewrite ballotAt_counter.
        apply (counter_inv_later t); [done | apply IH; lia].
    + intros b' Hb'. destruct (decide (b = b')) as [->|Hne].
      * rewrite ballotAt_store_eq.
        pose proof (IH b' Hb') as Hinv.
        destruct (resultsRevealed (ballotAt s b')) eqn:Hrev.
        { destruct Hinv as (_ & _ & Hr'). specialize (Hr' Hrev). lia. }
        apply counter_inv_credited; [lia | done |].
        apply (counter_inv_later t); [done | by apply IH].
      * rewrite ballotAt_store_ne by done.
        apply (counter_inv_later t); [done | by apply IH].
    + intros b' Hb'. destruct (decide (b = b')) as [->|Hne].
      * rewrite ballotAt_store_eq.
        pose proof (IH b' Hb') as Hinv.
        destruct (resultsRevealed (ballotAt s b')) eqn:Hrev.
        { destruct Hinv as (_ & _ & Hr'). specialize (Hr' Hrev). lia. }
        apply counter_inv_credited; [|done|].
        { destruct (Hex b' Hb'). lia. }
        apply (counter_inv_later t); [done | by apply IH].
      * rewrite ballotAt_store_ne by done.
        apply (counter_inv_later t); [done | by apply IH].
    + intros b' Hb'. destruct (decide (b = b')) as [->|Hne].
      * rewrite ballotAt_store_eq.
        destruct (IH b' Hb') as (Hrange & Hq & _).
        split; [done|]. split; [done|]. done.
      * rewrite ballotAt_store_ne by done.
        apply (counter_inv_later t); [done | by apply IH].
Qed.

(** X7. Votes are conserved: in every reachable state, whoever revealed what,
    each encrypted counter of an existing ballot holds a 32-bit value and the
    counters of its candidates sum to [totalVotes] modulo [2^32]; with fewer
    than [2^32] votes the sum is exactly [totalVotes]. *)
Theorem votes_conserved iv s t b :
  reachable iv s t -> 0 <= b < ballotCounter s ->
  (forall i, 0 <= FHE.decrypt (encryptedVoteOf (ballotAt s b) i) < 2 ^ 32) /\
  sumCounters (ballotAt s b) mod 2 ^ 32 = totalVotes (ballotAt s b) mod 2 ^ 32 /\
  (totalVotes (ballotAt s b) < 2 ^ 32 ->
     sumCounters (ballotAt s b) = totalVotes (ballotAt s b)).
Proof.
  intros Hreach Hb.
  destruct (reachable_counters iv _ s t Hreach b Hb) as (Hrange & (q & Hq0 & Hq) & _).
  split; [done|]. split.
  - rewrite Hq. by rewrite Z.mod_add by done.
  - intros Hsmall.
    assert (0 <= sumCounters (ballotAt s b)) as Hnn.
    { unfold sumCounters, decryptedCounters. apply sumZ_nonneg.
      intros i. apply Hrange. }
    change (2 ^ 32) with 4294967296 in *. lia.
Qed.

Lemma votes_conserved_witness :
  sumCounters (ballotAt Scenario.s3_forged 0) = totalVotes (ballotAt Scenario.s3_forged 0).
Proof.
  destruct (votes_conserved acceptAll Scenario.s3_forged 4600 0) as (_ & _ & H).
  - apply scenario_s3_forged_reachable.
  - vm_compute. split; [discriminate | reflexivity].
  - apply H. vm_compute. reflexivity.
Defined.

(** X8. A revealed ballot is final. In a reachable state, for an existing
    ballot whose results are revealed, every [vote] and [voteEncrypted] in a
    later block is rejected with "Ballot has ended", every [setResults] with
    "Results already revealed", and no transaction of any kind changes
    anything the ballot stores. *)
Theorem revealed_ballot_is_final iv s t env b :
  reachable iv s t -> 0 <= b < ballotCounter s ->
  resultsRevealed (ballotAt s b) = true ->
  t <= timestamp env ->
  (forall k, vote env s b k = Fail (Revert "Ballot has ended")) /\
  (forall h p, voteEncrypted iv env s b h p = Fail (Revert "Ballot has ended")) /\
  (forall rs, setResults env s b rs = Fail AlreadyRevealedError) /\
  (forall c, ballotAt (step iv s env c) b = ballotAt s b).
Proof.
  intros Hreach Hb Hrev Hle.
  destruct (reachable_counters iv _ s t Hreach b Hb) as (_ & _ & Hend).
  specialize (Hend Hrev).
  pose proof (reachable_by_wf _ _ _ _ Hreach) as (_ & _ & Hex).
  destruct (Hex b Hb) as [Hact _].
  assert ((timestamp env <? endTime (ballotAt s b)) = false) as Hlt
    by (apply Z.ltb_ge; lia).
  repeat split.
  - intros k. unfold vote, ballotExists, ballotActive, require.
    rewrite (proj2 (Z.ltb_lt b (ballotCounter s))) by lia. simpl.
    rewrite Hact. simpl. by rewrite Hlt.
  - intros h p. unfold voteEncrypted, ballotExists, ballotActive, require.
    rewrite (proj2 (Z.ltb_lt b (ballotCounter s))) by lia. simpl.
    rewrite Hact. simpl. by rewrite Hlt.
  - intros rs. apply setResults_rejects_revealed; [lia | lia | done].
  - intros c. pose proof (step_transition iv s env c) as Htr.
    destruct Htr; simpl.
    + done.
    + rewrite ballotAt_store_ne by lia. done.
    + destruct (decide (b0 = b)) as [->|Hne]; [lia|].
      by rewrite ballotAt_store_ne.
    + destruct (decide (b0 = b)) as [->|Hne]; [lia|].
      by rewrite ballotAt_store_ne.
    + destruct (decide (b0 = b)) as [->|Hne]; [congruence|].
      by rewrite ballotAt_store_ne.
Qed.

Lemma revealed_ballot_is_final_witness :
  vote (mkEnv 5000 Scenario.alice) Scenario.s3 0 2 = Fail (Revert "Ballot has ended") /\
  ballotAt (step acceptAll Scenario.s3 (mkEnv 5000 Scenario.bob)
              (SetResults 0 [9; 9; 9])) 0
  = ballotAt Scenario.s3 0.
Proof.
  split.
  - destruct (revealed_ballot_is_final acceptAll Scenario.s3 4600
                (mkEnv 5000 Scenario.alice) 0) as (H & _).
    + apply (reachable_by_weaken acceptAll honestReveal); [done|].
      apply scenario_s3_reachable.
    + vm_compute. split; [discriminate | reflexivity].
    + vm_compute. reflexivity.
    + vm_compute. discriminate.
    + apply H.
  - destruct (revealed_ballot_is_final acceptAll Scenario.s3 4600
                (mkEnv 5000 Scenario.bob) 0) as (_ & _ & _ & H).
    + apply (reachable_by_weaken acceptAll honestReveal); [done|].
      apply scenario_s3_reachable.
    + vm_compute. split; [discriminate | reflexivity].
    + vm_compute. reflexivity.
    + vm_compute. discriminate.
    + apply H.
Defined.

(** ** The plaintext vote path *)

Lemma vote_accepts env s b k :
  b < ballotCounter s ->
  isActive (ballotAt s b) = true ->
  timestamp env < endTime (ballotAt s b) ->
  hasVotedOf (ballotAt s b) (sender env) = false ->
  k < len (candidates (ballotAt s b)) ->
  totalVotes (ballotAt s b) + 1 <= MAX_UINT256 ->
  vote env s b k
  = Success (storeBallot s b (credited k (sender env) (ballotAt s b)),
             [VoteCast b (sender env)]).
Proof.
  intros Hb Hact Hend Hnv Hk Htot.
  unfold vote, ballotExists, ballotActive, hasNotVoted, require, checked_add.
  rewrite (proj2 (Z.ltb_lt b (ballotCounter s))) by done. simpl.
  rewrite Hact. simpl.
  rewrite (proj2 (Z.ltb_lt (timestamp env) (endTime (ballotAt s b)))) by done.
  simpl. rewrite Hnv. simpl.
  rewrite (proj2 (Z.ltb_lt k (len (candidates (ballotAt s b))))) by done. simpl.
  by rewrite (proj2 (Z.leb_le (totalVotes (ballotAt s b) + 1) MAX_UINT256)) by done.
Qed.

(** X9. The plaintext [vote]: on an existing, active ballot on which the
    caller has not voted, an index below the candidate count is accepted
    (short of an overflow of [totalVotes]) and an index at or above it is
    rejected with "Invalid candidate index". An accepted vote adds one, modulo
    [2^32], to the counter of the chosen candidate and to no other, records the
    caller and nobody else, adds one to [totalVotes], leaves the reveal state
    and all other ballots as they were, and the new counter is what
    [getEncryptedVoteCount] returns. *)
Theorem vote_credits_choice env s b k :
  b < ballotCounter s ->
  isActive (ballotAt s b) = true ->
  timestamp env < endTime (ballotAt s b) ->
  hasVotedOf (ballotAt s b) (sender env) = false ->
  (len (candidates (ballotAt s b)) <= k ->
     vote env s b k = Fail (Revert "Invalid candidate index")) /\
  (k < len (candidates (ballotAt s b)) ->
   totalVotes (ballotAt s b) + 1 <= MAX_UINT256 ->
   exists s',
     vote env s b k = Success (s', [VoteCast b (sender env)]) /\
     FHE.decrypt (encryptedVoteOf (ballotAt s' b) k)
       = (FHE.decrypt (encryptedVoteOf (ballotAt s b) k) + 1) mod 2 ^ 32 /\
     getEncryptedVoteCount s' b k = Success (encryptedVoteOf (ballotAt s' b) k) /\
     (forall i, i <> k ->
        encryptedVoteOf (ballotAt s' b) i = encryptedVoteOf (ballotAt s b) i) /\
     hasVotedOf (ballotAt s' b) (sender env) = true /\
     (forall v, v <> sender env ->
        hasVotedOf (ballotAt s' b) v = hasVotedOf (ballotAt s b) v) /\
     totalVotes (ballotAt s' b) = totalVotes (ballotAt s b) + 1 /\
     resultsRevealed (ballotAt s' b) = resultsRevealed (ballotAt s b) /\
     finalResults (ballotAt s' b) = finalResults (ballotAt s b) /\
     ballotCounter s' = ballotCounter s /\
     (forall b', b' <> b -> ballotAt s' b' = ballotAt s b')).
Proof.
  intros Hb Hact Hend Hnv. split.
  - intros Hk. unfold vote, ballotExists, ballotActive, hasNotVoted, require.
    rewrite (proj2 (Z.ltb_lt b (ballotCounter s))) by done. simpl.
    rewrite Hact. simpl.
    rewrite (proj2 (Z.ltb_lt (timestamp env) (endTime (ballotAt s b)))) by done.
    simpl. rewrite Hnv. simpl.
    by rewrite (proj2 (Z.ltb_ge k (len (candidates (ballotAt s b))))) by done.
  - intros Hk Htot. eexists. split; [by apply vote_accepts|].
    rewrite ballotAt_store_eq. repeat split.
    + rewrite encryptedVoteOf_credited, decide_True by done.
      apply decrypt_add_one.
    + rewrite getEncryptedVoteCount_in_range;
        [by rewrite ballotAt_store_eq | done | by rewrite ballotAt_store_eq].
    + intros i Hi. rewrite encryptedVoteOf_credited. by rewrite decide_False.
    + rewrite hasVotedOf_credited. by rewrite decide_True.
    + intros v Hv. rewrite hasVotedOf_credited. by rewrite decide_False.
    + intros b' Hb'. by rewrite ballotAt_store_ne.
Qed.

Lemma vote_credits_choice_witness :
  vote (mkEnv 1010 Scenario.bob) Scenario.s1 0 3
    = Fail (Revert "Invalid candidate index") /\
  exists s', vote (mkEnv 1010 Scenario.bob) Scenario.s1 0 1
             = Success (s', [VoteCast 0 Scenario.bob]) /\
             totalVotes (ballotAt s' 0) = totalVotes (ballotAt Scenario.s1 0) + 1.
Proof.
  destruct (vote_credits_choice (mkEnv 1010 Scenario.bob) Scenario.s1 0 3)
    as [Hbad _]; try (vm_compute; reflexivity).
  destruct (vote_credits_choice (mkEnv 1010 Scenario.bob) Scenario.s1 0 1)
    as [_ Hok]; try (vm_compute; reflexivity).
  split.
  - apply Hbad. vm_compute. discriminate.
  - destruct Hok as (s' & Hv & _ & _ & _ & _ & _ & Ht & _).
    + vm_compute. reflexivity.
    + vm_compute. discriminate.
    + exists s'. split; [exact Hv | exact Ht].
Defined.

(** ** The list views against [getBallotInfo] *)

Lemma filter_seqZ_sorted (P : Z -> Prop) `{!forall x, Decision (P x)} (n : nat) (m : Z) :
  StronglySorted Z.lt (filter P (seqZ m (Z.of_nat n))).
Proof.
  revert m. induction n as [|n IH]; intros m.
  - simpl. constructor.
  - rewrite seqZ_succ.
    assert (Forall (Z.lt m) (filter P (seqZ (m + 1) (Z.of_nat n)))) as Hall.
    { apply Forall_forall. intros x Hx.
      apply list_elem_of_filter in Hx as [_ Hx]. apply elem_of_seqZ in Hx. lia. }
    destruct (decide (P m)) as [Hm|Hm].
    + rewrite filter_cons_True by done. apply StronglySorted_cons. split; [done | apply IH].
    + rewrite filter_cons_False by done. apply IH.
Qed.

(** X10. In every state both list views succeed and return ballot ids in
    strictly increasing order; an id is listed by [getActiveBallots] exactly
    when [getBallotInfo] of that id reports [isActive], and by
    [getEndedBallots] exactly when the reported [endTime] is not after the
    block time. *)
Theorem list_views_match_info env s :
  0 <= ballotCounter s ->
  exists active ended,
    getActiveBallots env s = Success active /\
    getEndedBallots env s = Success ended /\
    StronglySorted Z.lt active /\ StronglySorted Z.lt ended /\
    (forall i, i ∈ active <->
       0 <= i /\ exists info, getBallotInfo env s i = Success info /\
                              info_isActive info = true) /\
    (forall i, i ∈ ended <->
       0 <= i /\ exists info, getBallotInfo env s i = Success info /\
                              info_endTime info <= timestamp env).
Proof.
  intros Hc.
  exists (filter (fun j => activeAt env s j = true) (ballotIds s)),
         (filter (fun j => endedAt env s j = true) (ballotIds s)).
  rewrite getActiveBallots_collect, getEndedBallots_collect.
  rewrite !collectIds_filter by lia.
  split; [done|]. split; [done|].
  assert (forall P `{!forall x, Decision (P x)},
            StronglySorted Z.lt (filter P (ballotIds s))) as Hsorted.
  { intros P HP. unfold ballotIds.
    rewrite <- (Z2Nat.id (ballotCounter s)) by lia. apply filter_seqZ_sorted. }
  split; [apply Hsorted|]. split; [apply Hsorted|].
  split; intros i; rewrite list_elem_of_filter; unfold ballotIds;
    rewrite elem_of_seqZ; unfold getBallotInfo, ballotExists, require.
  - split.
    + intros [Hact [Hi0 Hi1]]. split; [lia|].
      rewrite (proj2 (Z.ltb_lt i (ballotCounter s))) by lia. simpl.
      eexists. split; [reflexivity|]. exact Hact.
    + intros [Hi0 (info & Hinfo & Hact)].
      destruct (i <? ballotCounter s) eqn:E; simpl in Hinfo; [|done].
      apply Z.ltb_lt in E. injection Hinfo as <-. simpl in Hact.
      split; [exact Hact | lia].
  - split.
    + intros [Hend [Hi0 Hi1]]. split; [lia|].
      rewrite (proj2 (Z.ltb_lt i (ballotCounter s))) by lia. simpl.
      eexists. split; [reflexivity|]. simpl.
      unfold endedAt in Hend. by apply Z.leb_le.
    + intros [Hi0 (info & Hinfo & Hend)].
      destruct (i <? ballotCounter s) eqn:E; simpl in Hinfo; [|done].
      apply Z.ltb_lt in E. injection Hinfo as <-. simpl in Hend.
      split; [unfold endedAt; by apply Z.leb_le | lia].
Qed.

Lemma list_views_match_info_witness :
  exists active ended,
    getActiveBallots (mkEnv 2000 Scenario.alice) Scenario.s2 = Success active /\
    getEndedBallots (mkEnv 2000 Scenario.alice) Scenario.s2 = Success ended /\
    StronglySorted Z.lt active /\ StronglySorted Z.lt ended.
Proof.
  destruct (list_views_match_info (mkEnv 2000 Scenario.alice) Scenario.s2)
    as (active & ended & Ha & He & Hsa & Hse & _).
  - vm_compute. discriminate.
  - exists active, ended. repeat split; assumption.
Defined.

(** ** What the reveal task commits *)

(** C9. For an existing ballot the off-chain task always finishes its
    decryption loop, whichever requests fail: the array it builds has one entry
    per candidate, 0 where the request for that candidate failed and the
    decrypted counter elsewhere, and this full-length array is what it commits
    with [setResults]. On an ended, unrevealed ballot the commit is accepted
    whatever failures occurred, and it is this array that the contract then
    holds: [getResults] returns one entry per candidate, the entry of the
    task's array reduced to 32 bits, so 0 for every candidate whose request
    failed; where the counters hold 32-bit values, as in every reachable
    state, [getResults] returns the task's array itself. *)
Theorem reveal_task_soft_failure fails env s b :
  b < ballotCounter s ->
  let x := ballotAt s b in
  let results := revealedCount fails x <$> candidateIndices x in
  RevealTask.decryptAll fails env s b = Success results /\
  length results = length (candidates x) /\
  (forall i, (i < length (candidates x))%nat ->
     results !! i =
       Some (if fails (Z.of_nat i) then 0
             else FHE.decrypt (encryptedVoteOf x (Z.of_nat i)))) /\
  RevealTask.revealResults fails env s b = setResults env s b results /\
  (endTime x <= timestamp env -> resultsRevealed x = false ->
     exists s',
       RevealTask.revealResults fails env s b
         = Success (s', [ResultsRevealed b results]) /\
       resultsRevealed (ballotAt s' b) = true /\
       getResults s' b = Success (uint32 <$> results) /\
       (forall i, (i < length (candidates x))%nat ->
          finalResultOf (ballotAt s' b) (Z.of_nat i)
          = uint32 (if fails (Z.of_nat i) then 0
                    else FHE.decrypt (encryptedVoteOf x (Z.of_nat i))) /\
          (fails (Z.of_nat i) = true ->
             finalResultOf (ballotAt s' b) (Z.of_nat i) = 0)) /\
       ((forall i, 0 <= FHE.decrypt (encryptedVoteOf x i) < 2 ^ 32) ->
          getResults s' b = Success results) /\
       (forall iv t, reachable iv s t -> 0 <= b ->
          getResults s' b = Success results)).
Proof.
  intros Hb x results.
  assert (RevealTask.decryptAll fails env s b = Success results) as Hall.
  { unfold RevealTask.decryptAll, getBallotInfo, ballotExists, require.
    rewrite (proj2 (Z.ltb_lt b (ballotCounter s))) by done. simpl.
    rewrite reveal_loop by (done || (unfold len; lia)). done. }
  assert (length results = length (candidates x)) as Hlen.
  { unfold results, candidateIndices, len.
    rewrite length_fmap, length_seqZ. lia. }
  assert (forall i, (i < length (candidates x))%nat ->
            results !! i = Some (revealedCount fails x (Z.of_nat i))) as Hat.
  { intros i Hi. unfold results, candidateIndices, len.
    rewrite list_lookup_fmap, lookup_seqZ_lt by lia. simpl.
    by rewrite Z.add_0_l. }
  split; [done|]. split; [done|]. split; [exact Hat|]. split.
  - unfold RevealTask.revealResults. by rewrite Hall.
  - intros Hend Hr.
    assert (len results = len (candidates x)) as Hlen'
      by (unfold len; by rewrite Hlen).
    exists (storeBallot s b (revealedWith results x)).
    assert (getResults (storeBallot s b (revealedWith results x)) b
            = Success (uint32 <$> results)) as Hget.
    { rewrite getResults_revealed.
      - rewrite ballotAt_store_eq. by rewrite revealed_results_read.
      - done.
      - by rewrite ballotAt_store_eq. }
    assert ((forall i, 0 <= FHE.decrypt (encryptedVoteOf x i) < 2 ^ 32) ->
            uint32 <$> results = results) as Hsmall.
    { intros Hrange. apply list_eq. intros i. rewrite list_lookup_fmap.
      destruct (decide (i < length (candidates x))%nat) as [Hi|Hi].
      - rewrite (Hat i Hi). simpl. f_equal. apply uint32_small.
        unfold revealedCount. destruct (fails (Z.of_nat i)); [lia | apply Hrange].
      - by rewrite lookup_ge_None_2 by lia. }
    split; [|split; [|split; [|split; [|split]]]].
    + unfold RevealTask.revealResults. rewrite Hall. simpl.
      by apply setResults_accepts.
    + by rewrite ballotAt_store_eq.
    + exact Hget.
    + intros i Hi. rewrite ballotAt_store_eq.
      assert (finalResultOf (revealedWith results x) (Z.of_nat i)
              = uint32 (revealedCount fails x (Z.of_nat i))) as Hfin.
      { rewrite finalResultOf_revealedWith.
        rewrite decide_True by (unfold len; lia).
        by rewrite Nat2Z.id, (Hat i Hi). }
      split; [exact Hfin|]. intros Hf. rewrite Hfin.
      unfold revealedCount. by rewrite Hf.
    + intros Hrange. by rewrite Hget, Hsmall.
    + intros iv t Hreach H0. rewrite Hget, Hsmall; [done|].
      by destruct (reachable_counters iv _ s t Hreach b (conj H0 Hb)) as [? _].
Qed.

Lemma reveal_task_soft_failure_witness :
  RevealTask.decryptAll (fun i => bool_decide (i = 1)) (mkEnv 4600 Scenario.alice)
                        Scenario.s2 0 = Success [0; 0; 0] /\
  exists s',
    RevealTask.revealResults (fun i => bool_decide (i = 1))
      (mkEnv 4600 Scenario.alice) Scenario.s2 0
    = Success (s', [ResultsRevealed 0 [0; 0; 0]]) /\
    getResults s' 0 = Success [0; 0; 0].
Proof.
  assert (revealedCount (fun i => bool_decide (i = 1)) (ballotAt Scenario.s2 0)
            <$> candidateIndices (ballotAt Scenario.s2 0) = [0; 0; 0]) as E
    by (vm_compute; reflexivity).
  destruct (reveal_task_soft_failure (fun i => bool_decide (i = 1))
              (mkEnv 4600 Scenario.alice) Scenario.s2 0) as (H & _ & _ & _ & Hc).
  - vm_compute. reflexivity.
  - destruct Hc as (s' & H1 & _ & H3 & _).
    + vm_compute. discriminate.
    + vm_compute. reflexivity.
    + rewrite E in H, H1, H3. split; [exact H|].
      exists s'. split; [exact H1|]. rewrite H3. reflexivity.
Defined.

(** ** The reveal task against the counters *)

Lemma decryptAll_closed fails env s b :
  b < ballotCounter s ->
  RevealTask.decryptAll fails env s b
  = Success (revealedCount fails (ballotAt s b) <$> candidateIndices (ballotAt s b)).
Proof.
  intros Hb. unfold RevealTask.decryptAll, getBallotInfo, ballotExists, require.
  rewrite (proj2 (Z.ltb_lt b (ballotCounter s))) by done. simpl.
  rewrite reveal_loop by (done || (unfold len; lia)). done.
Qed.

Lemma sumZ_le (f g : Z -> Z) (l : list Z) :
  (forall i, i ∈ l -> f i <= g i) -> sumZ (f <$> l) <= sumZ (g <$> l).
Proof.
  induction l as [|a l IH]; intros H; [done|].
  rewrite !fmap_cons, !sumZ_cons.
  pose proof (H a (list_elem_of_here _ _)).
  assert (sumZ (f <$> l) <= sumZ (g <$> l))
    by (apply IH; intros i Hi; apply H; by apply list_elem_of_further).
  lia.
Qed.

(** X11. The reveal task never over-reports. For an existing ballot in a
    reachable state, whichever decryption requests fail, every count the task
    commits is between 0 and the decrypted counter of that candidate, so the
    committed counts sum to at most the sum of the counters; the committed
    array is the array of decrypted counters exactly when no request failed
    on a candidate that has votes. *)
Theorem reveal_task_never_overreports iv fails env s t b :
  reachable iv s t -> 0 <= b < ballotCounter s ->
  exists results,
    RevealTask.decryptAll fails env s b = Success results /\
    (forall i r, results !! i = Some r ->
       0 <= r <= FHE.decrypt (encryptedVoteOf (ballotAt s b) (Z.of_nat i))) /\
    sumZ results <= sumCounters (ballotAt s b) /\
    (results = decryptedCounters (ballotAt s b) <->
     forall i, 0 <= i < len (candidates (ballotAt s b)) -> fails i = true ->
       FHE.decrypt (encryptedVoteOf (ballotAt s b) i) = 0).
Proof.
  intros Hreach Hb.
  destruct (reachable_counters iv _ s t Hreach b Hb) as (Hrange & _ & _).
  eexists. split; [apply decryptAll_closed; lia|]. split; [|split].
  - intros i r Hi. unfold candidateIndices in Hi.
    rewrite list_lookup_fmap in Hi.
    destruct (seqZ 0 (len (candidates (ballotAt s b))) !! i) as [j|] eqn:E;
      [|done].
    apply lookup_seqZ in E as [-> _]. injection Hi as <-.
    rewrite Z.add_0_l. unfold revealedCount.
    specialize (Hrange (Z.of_nat i)). destruct (fails (Z.of_nat i)); lia.
  - unfold sumCounters, decryptedCounters. apply sumZ_le.
    intros i _. unfold revealedCount. specialize (Hrange i).
    destruct (fails i); lia.
  - unfold decryptedCounters, candidateIndices. split.
    + intros Heq i Hi Hf.
      assert ((revealedCount fails (ballotAt s b)
                 <$> seqZ 0 (len (candidates (ballotAt s b)))) !! Z.to_nat i
              = ((fun i => FHE.decrypt (encryptedVoteOf (ballotAt s b) i))
                 <$> seqZ 0 (len (candidates (ballotAt s b)))) !! Z.to_nat i)
        as Hlook by (by rewrite Heq).
      rewrite !list_lookup_fmap, lookup_seqZ_lt in Hlook by lia.
      simpl in Hlook. rewrite Z.add_0_l, Z2Nat.id in Hlook by lia.
      injection Hlook as Hlook. unfold revealedCount in Hlook.
      rewrite Hf in Hlook. done.
    + intros Hzero. apply list_fmap_ext. intros k i Hi.
      apply lookup_seqZ in Hi as [-> Hk]. rewrite Z.add_0_l.
      unfold revealedCount. destruct (fails (Z.of_nat k)) eqn:Hf; [|done].
      symmetry. apply Hzero; [lia | done].
Qed.

Lemma reveal_task_never_overreports_witness :
  exists results,
    RevealTask.decryptAll (fun i => bool_decide (i = 1)) (mkEnv 4600 Scenario.alice)
                          Scenario.s2 0 = Success results /\
    sumZ results <= sumCounters (ballotAt Scenario.s2 0).
Proof.
  destruct (reveal_task_never_overreports acceptAll (fun i => bool_decide (i = 1))
              (mkEnv 4600 Scenario.alice) Scenario.s2 1010 0)
    as (results & H1 & _ & H3 & _).
  - apply (reachable_by_weaken acceptAll honestReveal); [done|].
    apply scenario_s2_reachable.
  - vm_compute. split; [discriminate | reflexivity].
  - exists results. split; [exact H1 | exact H3].
Defined.

(** ** The winners the results task prints *)

Lemma winnersLoop_fold (results : list Z) (cands : list string) (k : nat)
    (st : Z * list string) :
  for_each
    (fun i cand st =>
       match results !! Z.to_nat i with
       | Some votes => GetResultsTask.tallyOne votes cand st
       | None => st
       end)
    (Z.of_nat k) cands st
  = foldl (fun st p => GetResultsTask.tallyOne (snd p) (fst p) st) st
          (zip cands (drop k results)).
Proof.
  revert k st. induction cands as [|c cs IH]; intros k st; [done|].
  cbn [for_each]. rewrite Nat2Z.id.
  replace (Z.of_nat k + 1) with (Z.of_nat (S k)) by lia. rewrite IH.
  destruct (results !! k) as [r|] eqn:E.
  - by rewrite (drop_S _ _ _ E).
  - apply lookup_ge_None in E.
    rewrite (drop_ge results k) by lia. rewrite (drop_ge results (S k)) by lia.
    by rewrite !zip_with_nil_r.
Qed.

Lemma foldl_max_ge (l : list Z) (a : Z) : a <= foldl Z.max a l.
Proof.
  revert a. induction l as [|x l IH]; intros a; simpl; [lia|].
  specialize (IH (Z.max a x)). lia.
Qed.

Lemma foldl_max_bound (l : list Z) (a x : Z) : x ∈ l -> x <= foldl Z.max a l.
Proof.
  revert a. induction l as [|y l IH]; intros a Hx; simpl.
  - by apply elem_of_nil in Hx.
  - apply elem_of_cons in Hx as [->|Hx].
    + pose proof (foldl_max_ge l (Z.max a y)). lia.
    + by apply IH.
Qed.

Lemma filter_none {A : Type} (P : A -> Prop) `{!forall x, Decision (P x)} (l : list A) :
  (forall x, x ∈ l -> ~ P x) -> filter P l = [].
Proof.
  induction l as [|a l IH]; intros Hno; [done|].
  rewrite filter_cons_False by (apply Hno, list_elem_of_here).
  apply IH. intros x Hx. apply Hno. by apply list_elem_of_further.
Qed.

Lemma tally_fold (l : list (string * Z)) :
  foldl (fun st p => GetResultsTask.tallyOne (snd p) (fst p) st) (0, []) l
  = (foldl Z.max 0 (snd <$> l),
     if 0 <? foldl Z.max 0 (snd <$> l)
     then fst <$> filter (fun p => snd p = foldl Z.max 0 (snd <$> l)) l
     else []).
Proof.
  induction l as [|[c v] l IH] using rev_ind; [done|].
  rewrite foldl_app, IH. simpl. rewrite fmap_app, foldl_app. simpl.
  set (m := foldl Z.max 0 (snd <$> l)).
  assert (0 <= m) as Hm0 by apply foldl_max_ge.
  assert (forall p, p ∈ l -> snd p <= m) as Hbound.
  { intros p Hp. apply foldl_max_bound. apply list_elem_of_fmap. eauto. }
  unfold GetResultsTask.tallyOne.
  destruct (m <? v) eqn:E1.
  - apply Z.ltb_lt in E1. rewrite Z.max_r by lia.
    rewrite (proj2 (Z.ltb_lt 0 v)) by lia.
    rewrite filter_app, fmap_app.
    assert (filter (fun p : string * Z => snd p = v) l = []) as ->.
    { apply filter_none. intros p Hp Hv. specialize (Hbound p Hp). lia. }
    by rewrite filter_cons_True by done.
  - apply Z.ltb_ge in E1. rewrite Z.max_l by lia. fold m.
    destruct (v =? m) eqn:E2; simpl.
    + apply Z.eqb_eq in E2. subst v.
      destruct (0 <? m) eqn:E3; [|done].
      rewrite filter_app, fmap_app. by rewrite filter_cons_True by done.
    + apply Z.eqb_neq in E2.
      destruct (0 <? m) eqn:E3; [|done].
      rewrite filter_app, fmap_app. rewrite filter_cons_False by done.
      by rewrite app_nil_r.
Qed.

Lemma winnersLoop_closed (cands : list string) (results : list Z) :
  length results = length cands ->
  GetResultsTask.winnersLoop cands results
  = (foldl Z.max 0 results,
     if 0 <? foldl Z.max 0 results
     then fst <$> filter (fun p => snd p = foldl Z.max 0 results) (zip cands results)
     else []).
Proof.
  intros Hlen. unfold GetResultsTask.winnersLoop.
  pose proof (winnersLoop_fold results cands 0 (0, [])) as Hf.
  change (Z.of_nat 0) with 0 in Hf. rewrite Hf, drop_0.
  rewrite tally_fold. by rewrite snd_zip by lia.
Qed.

Lemma foldl_max_attained (l : list Z) (a : Z) :
  foldl Z.max a l = a \/ foldl Z.max a l ∈ l.
Proof.
  revert a. induction l as [|x l IH]; intros a; simpl; [by left|].
  destruct (IH (Z.max a x)) as [H|H].
  - destruct (Z.max_spec a x) as [[_ Hx]|[_ Hx]]; rewrite Hx in *.
    + right. rewrite H. apply list_elem_of_here.
    + by left.
  - right. by apply list_elem_of_further.
Qed.

(** Whether the printed report is "no votes cast". *)
Lemma report_no_votes (cands : list string) (results : list Z) :
  length results = length cands ->
  GetResultsTask.report (GetResultsTask.winnersLoop cands results)
    = GetResultsTask.NoVotesCast <-> foldl Z.max 0 results = 0.
Proof.
  intros Hlen. rewrite winnersLoop_closed by done.
  unfold GetResultsTask.report. simpl.
  set (maxVotes := foldl Z.max 0 results).
  assert (0 <= maxVotes) as Hm0 by apply foldl_max_ge.
  destruct (0 <? maxVotes) eqn:E.
  - apply Z.ltb_lt in E.
    assert (exists c, (c, maxVotes) ∈ zip cands results) as [c Hc].
    { assert (maxVotes ∈ results) as Hin.
      { destruct (foldl_max_attained results 0) as [H|H]; [unfold maxVotes in E; lia | done]. }
      apply list_elem_of_lookup in Hin as [i Hi].
      destruct (lookup_lt_is_Some_2 cands i) as [c Hc].
      { apply lookup_lt_Some in Hi. lia. }
      exists c. apply list_elem_of_lookup. exists i.
      apply lookup_zip_with_Some. eauto. }
    assert ((c, maxVotes) ∈ filter (fun p : string * Z => snd p = maxVotes)
                             (zip cands results)) as Hf
      by (by apply list_elem_of_filter).
    destruct (filter (fun p : string * Z => snd p = maxVotes) (zip cands results))
      as [|p [|p' rest]] eqn:Ef.
    + by apply elem_of_nil in Hf.
    + simpl. split; [done | lia].
    + simpl. split; [done | lia].
  - apply Z.ltb_ge in E. split; [lia | done].
Qed.

(** X12. For counts below [2^53] (which JavaScript numbers hold exactly),
    the results task prints as winners exactly the candidates whose count is
    the largest count, in candidate order, provided that count is positive;
    when no candidate has a vote it prints no winner. The maximum it reports
    bounds every count. *)
Theorem winners_are_the_maxima (cands : list string) (results : list Z) :
  length results = length cands ->
  Forall (fun r => 0 <= r < 2 ^ 53) results ->
  let maxVotes := foldl Z.max 0 results in
  GetResultsTask.winnersLoop cands results
  = (maxVotes,
     if 0 <? maxVotes
     then fst <$> filter (fun p => snd p = maxVotes) (zip cands results)
     else []) /\
  (forall r, r ∈ results -> r <= maxVotes) /\
  (GetResultsTask.report (GetResultsTask.winnersLoop cands results)
     = GetResultsTask.NoVotesCast <-> maxVotes = 0).
Proof.
  intros Hlen _ maxVotes. split; [by apply winnersLoop_closed|].
  split; [intros r Hr; by apply foldl_max_bound|].
  by apply report_no_votes.
Qed.

Lemma winners_are_the_maxima_witness :
  GetResultsTask.winnersLoop ["Alice"; "Bob"; "Charlie"] [2; 0; 2]
  = (2, ["Alice"; "Charlie"]).
Proof.
  destruct (winners_are_the_maxima ["Alice"; "Bob"; "Charlie"] [2; 0; 2])
    as (H & _); [reflexivity | repeat constructor; simpl; lia |].
  etrans; [exact H|]. vm_compute. reflexivity.
Defined.

(** ** The status the listing task prints *)

Lemma getBallotInfo_existing env s i :
  i < ballotCounter s ->
  getBallotInfo env s i
  = Success (mkBallotInfo (title (ballotAt s i)) (candidates (ballotAt s i))
               (endTime (ballotAt s i))
               (isActive (ballotAt s i) && (timestamp env <? endTime (ballotAt s i)))
               (resultsRevealed (ballotAt s i)) (creator (ballotAt s i))
               (totalVotes (ballotAt s i))).
Proof.
  intros Hi. unfold getBallotInfo, ballotExists, require.
  by rewrite (proj2 (Z.ltb_lt i (ballotCounter s))) by done.
Qed.

Lemma info_loop {A : Type} (f : Z -> BallotInfo -> A) env s (n : nat) (k : Z)
    (acc : list A) :
  k + Z.of_nat n <= ballotCounter s ->
  for_range
    (fun i acc => info ← getBallotInfo env s i; Success (acc ++ [f i info]))
    k n acc
  = Success
      (acc ++ ((fun i =>
                  f i (mkBallotInfo (title (ballotAt s i)) (candidates (ballotAt s i))
                         (endTime (ballotAt s i))
                         (isActive (ballotAt s i)
                          && (timestamp env <? endTime (ballotAt s i)))
                         (resultsRevealed (ballotAt s i)) (creator (ballotAt s i))
                         (totalVotes (ballotAt s i))))
               <$> seqZ k (Z.of_nat n))).
Proof.
  revert k acc. induction n as [|n IH]; intros k acc Hk.
  - simpl. by rewrite app_nil_r.
  - cbn [for_range]. rewrite getBallotInfo_existing by lia. simpl.
    rewrite IH by lia. rewrite seqZ_succ, fmap_cons. by rewrite <- app_assoc.
Qed.

(** X13. The listing task, run on a reachable state with fewer than [2^53]
    ballots at a time not before the last block, prints one line per ballot,
    in id order, and the status on the line of a ballot is "Active" exactly
    while the time is before its [endTime], "Results Revealed" exactly when its
    results are revealed, and "Ended (Pending Reveal)" exactly when it has
    ended unrevealed: a revealed ballot is never shown as active. *)
Theorem listing_shows_phase iv s t env :
  reachable iv s t -> ballotCounter s < 2 ^ 53 -> t <= timestamp env ->
  exists lines,
    ListBallotsTask.listBallots env s = Success lines /\
    length lines = Z.to_nat (ballotCounter s) /\
    forall i, 0 <= i < ballotCounter s ->
      exists st,
        lines !! Z.to_nat i = Some (i, st) /\
        (st = ListBallotsTask.StatusActive <->
           timestamp env < endTime (ballotAt s i)) /\
        (st = ListBallotsTask.StatusResultsRevealed <->
           resultsRevealed (ballotAt s i) = true) /\
        (st = ListBallotsTask.StatusEndedPendingReveal <->
           endTime (ballotAt s i) <= timestamp env /\
           resultsRevealed (ballotAt s i) = false).
Proof.
  intros Hreach _ Hle.
  pose proof (reachable_by_wf _ _ _ _ Hreach) as (Hcnt & _ & Hex).
  pose proof (reachable_counters iv _ s t Hreach) as Hinv.
  exists ((fun i =>
             (i, ListBallotsTask.statusOf
                   (mkBallotInfo (title (ballotAt s i)) (candidates (ballotAt s i))
                      (endTime (ballotAt s i))
                      (isActive (ballotAt s i)
                       && (timestamp env <? endTime (ballotAt s i)))
                      (resultsRevealed (ballotAt s i)) (creator (ballotAt s i))
                      (totalVotes (ballotAt s i)))))
          <$> seqZ 0 (ballotCounter s)).
  split; [|split].
  - unfold ListBallotsTask.listBallots, getTotalBallots.
    destruct (ballotCounter s =? 0) eqn:E.
    + apply Z.eqb_eq in E. by rewrite E.
    + rewrite (info_loop (fun i info => (i, ListBallotsTask.statusOf info)))
        by lia.
      by rewrite Z2Nat.id by lia.
  - rewrite length_fmap, length_seqZ. done.
  - intros i Hi. eexists. split.
    + rewrite list_lookup_fmap, lookup_seqZ_lt by lia. simpl.
      by rewrite Z.add_0_l, Z2Nat.id by lia.
    + destruct (Hex i Hi) as [Hact _].
      destruct (Hinv i Hi) as (_ & _ & Hend).
      unfold ListBallotsTask.statusOf. simpl. rewrite Hact. simpl.
      destruct (timestamp env <? endTime (ballotAt s i)) eqn:E1.
      * apply Z.ltb_lt in E1.
        destruct (resultsRevealed (ballotAt s i)) eqn:E2.
        { specialize (Hend eq_refl). lia. }
        repeat split; try done; try lia; intros [? ?]; lia.
      * apply Z.ltb_ge in E1.
        destruct (resultsRevealed (ballotAt s i)) eqn:E2;
          repeat split; try done; try lia; intros [? ?]; done.
Qed.

Lemma listing_shows_phase_witness :
  exists lines,
    ListBallotsTask.listBallots (mkEnv 5000 Scenario.alice) Scenario.s3 = Success lines /\
    length lines = 1%nat.
Proof.
  destruct (listing_shows_phase acceptAll Scenario.s3 4600 (mkEnv 5000 Scenario.alice))
    as (lines & H1 & H2 & _).
  - apply (reachable_by_weaken acceptAll honestReveal); [done|].
    apply scenario_s3_reachable.
  - vm_compute. reflexivity.
  - vm_compute. discriminate.
  - exists lines. split; [exact H1 | exact H2].
Defined.

(** ** The results task end to end *)

Lemma foldl_max_zero (l : list Z) :
  foldl Z.max 0 l = 0 <-> forall r, r ∈ l -> r <= 0.
Proof.
  split.
  - intros H r Hr. rewrite <- H. by apply foldl_max_bound.
  - intros H. pose proof (foldl_max_ge l 0) as Hge.
    destruct (foldl_max_attained l 0) as [Hat|Hat]; [done|].
    specialize (H _ Hat). lia.
Qed.

(** X14. On an existing ballot of a reachable state (whose stored results
    are exact as JavaScript numbers) the results task never fails: before the
    reveal it stops with "not revealed yet" without calling [getResults]; after
    the reveal it reads the stored results and reports "no votes cast" exactly
    when no stored result is positive. *)
Theorem results_task_total iv s t env b :
  reachable iv s t -> 0 <= b < ballotCounter s ->
  (resultsRevealed (ballotAt s b) = false ->
     GetResultsTask.getResults_task env s b = Success GetResultsTask.NotRevealedYet) /\
  (resultsRevealed (ballotAt s b) = true ->
     exists rep,
       GetResultsTask.getResults_task env s b = Success rep /\
       rep = GetResultsTask.report
               (GetResultsTask.winnersLoop (candidates (ballotAt s b))
                  (finalResultOf (ballotAt s b) <$> candidateIndices (ballotAt s b))) /\
       rep <> GetResultsTask.NotRevealedYet /\
       (rep = GetResultsTask.NoVotesCast <->
        forall i, 0 <= i < len (candidates (ballotAt s b)) ->
                  finalResultOf (ballotAt s b) i <= 0)).
Proof.
  intros _ [_ Hb]. split; intros Hr.
  - unfold GetResultsTask.getResults_task.
    rewrite getBallotInfo_existing by done. simpl. by rewrite Hr.
  - eexists. split; [|split; [reflexivity|split]].
    + unfold GetResultsTask.getResults_task.
      rewrite getBallotInfo_existing by done. simpl. rewrite Hr. simpl.
      by rewrite getResults_revealed by done.
    + unfold GetResultsTask.report.
      by destruct (snd _) as [|? [|? ?]].
    + rewrite report_no_votes
        by (unfold candidateIndices, len; rewrite length_fmap, length_seqZ; lia).
      rewrite foldl_max_zero. unfold candidateIndices. split.
      * intros H i Hi. apply H. apply list_elem_of_fmap. exists i.
        split; [done|]. apply elem_of_seqZ. lia.
      * intros H r Hr'. apply list_elem_of_fmap in Hr' as (i & -> & Hi).
        apply elem_of_seqZ in Hi. apply H. lia.
Qed.

Lemma results_task_total_witness :
  GetResultsTask.getResults_task (mkEnv 5000 Scenario.alice) Scenario.s2 0
    = Success GetResultsTask.NotRevealedYet /\
  exists rep, GetResultsTask.getResults_task (mkEnv 5000 Scenario.alice) Scenario.s3 0
              = Success rep.
Proof.
  split.
  - destruct (results_task_total acceptAll Scenario.s2 1010
                (mkEnv 5000 Scenario.alice) 0) as [H _].
    + apply (reachable_by_weaken acceptAll honestReveal); [done|].
      apply scenario_s2_reachable.
    + vm_compute. split; [discriminate | reflexivity].
    + apply H. vm_compute. reflexivity.
  - destruct (results_task_total acceptAll Scenario.s3 4600
                (mkEnv 5000 Scenario.alice) 0) as [_ H].
    + apply (reachable_by_weaken acceptAll honestReveal); [done|].
      apply scenario_s3_reachable.
    + vm_compute. split; [discriminate | reflexivity].
    + destruct H as (rep & Hrep & _); [vm_compute; reflexivity|].
      exists rep. exact Hrep.
Defined.

(** ** The front end's reveal *)

Lemma hook_zero_loop s b (cands : list string) (i : Z) (acc : list Z) :
  for_each
    (fun i (_ : string) results =>
       match getEncryptedVoteCount s b i with
       | Success FHE.Uninit => results ++ [0]
       | Success _ => results ++ [0]
       | Fail _ => results ++ [0]
       end)
    i cands acc
  = acc ++ replicate (length cands) 0.
Proof.
  revert i acc. induction cands as [|c cs IH]; intros i acc; simpl.
  - by rewrite app_nil_r.
  - destruct (getEncryptedVoteCount s b i) as [[|v]|f];
      rewrite IH; by rewrite <- app_assoc.
Qed.

Lemma revealArray_closed s b ballot :
  UseSecretBallotBox.cb_candidates ballot <> [] ->
  UseSecretBallotBox.revealArray s b ballot
  = Z.max 0 (UseSecretBallotBox.cb_totalVotes ballot)
    :: replicate (length (UseSecretBallotBox.cb_candidates ballot) - 1) 0.
Proof.
  intros Hne. unfold UseSecretBallotBox.revealArray.
  rewrite hook_zero_loop. simpl.
  destruct (UseSecretBallotBox.cb_candidates ballot) as [|c cs]; [done|].
  simpl. rewrite Nat.sub_0_r.
  destruct (0 <? UseSecretBallotBox.cb_totalVotes ballot) eqn:E; simpl.
  - apply Z.ltb_lt in E. by rewrite Z.max_r by lia.
  - apply Z.ltb_ge in E. by rewrite Z.max_l by lia.
Qed.

Lemma sumZ_replicate_zero (n : nat) : sumZ (replicate n 0) = 0.
Proof.
  induction n as [|n IH]; [done|].
  rewrite replicate_S, sumZ_cons, IH. done.
Qed.

(** X15. The array the front end's [revealResults] commits does not depend
    on the encrypted counters: for a ballot with at least one candidate it has
    one entry per candidate, the cached [totalVotes] (0 when that is not
    positive) for the first candidate and 0 for every other one, so its
    entries sum to the cached [totalVotes]. *)
Theorem hook_reveal_array s b ballot :
  UseSecretBallotBox.cb_candidates ballot <> [] ->
  0 <= UseSecretBallotBox.cb_totalVotes ballot ->
  let results := UseSecretBallotBox.revealArray s b ballot in
  results = UseSecretBallotBox.cb_totalVotes ballot
            :: replicate (length (UseSecretBallotBox.cb_candidates ballot) - 1) 0 /\
  length results = length (UseSecretBallotBox.cb_candidates ballot) /\
  sumZ results = UseSecretBallotBox.cb_totalVotes ballot /\
  (forall s', UseSecretBallotBox.revealArray s' b ballot = results).
Proof.
  intros Hne Htv results. unfold results.
  rewrite revealArray_closed by done. rewrite Z.max_r by done.
  split; [done|]. split; [|split].
  - simpl. rewrite length_replicate.
    destruct (UseSecretBallotBox.cb_candidates ballot); [done | simpl; lia].
  - rewrite sumZ_cons, sumZ_replicate_zero. lia.
  - intros s'. rewrite revealArray_closed by done. by rewrite Z.max_r by done.
Qed.

(** ** What the hook loads *)

Import UseSecretBallotBox.

Lemma collect_loop {A : Type} (g : Z -> Result A) (h : Z -> A) (n : nat) (k : Z)
    (acc : list A) :
  (forall i, k <= i < k + Z.of_nat n -> g i = Success (h i)) ->
  for_range (fun i acc => x ← g i; Success (acc ++ [x])) k n acc
  = Success (acc ++ (h <$> seqZ k (Z.of_nat n))).
Proof.
  revert k acc. induction n as [|n IH]; intros k acc Hg.
  - simpl. by rewrite app_nil_r.
  - cbn [for_range]. rewrite Hg by lia. simpl.
    rewrite IH by (intros i Hi; apply Hg; lia).
    rewrite seqZ_succ, fmap_cons. by rewrite <- app_assoc.
Qed.

Lemma hasVoted_existing s i a :
  i < ballotCounter s ->
  SecretBallotBox.hasVoted s i a = Success (hasVotedOf (ballotAt s i) a).
Proof.
  intros Hi. unfold SecretBallotBox.hasVoted, ballotExists, require.
  by rewrite (proj2 (Z.ltb_lt i (ballotCounter s))) by done.
Qed.

Lemma imap_seqZ {A B : Type} (F : nat -> A -> B) (g : Z -> A) (n : nat) (k : nat) :
  imap (fun j => F (k + j)%nat) (g <$> seqZ (Z.of_nat k) (Z.of_nat n))
  = (fun i => F (Z.to_nat i) (g i)) <$> seqZ (Z.of_nat k) (Z.of_nat n).
Proof.
  revert k. induction n as [|n IH]; intros k; [done|].
  rewrite seqZ_succ, !fmap_cons, imap_cons.
  rewrite Nat.add_0_r, Nat2Z.id. f_equal.
  replace (Z.of_nat k + 1) with (Z.of_nat (S k)) by lia.
  rewrite <- IH. apply imap_ext. intros j x _. simpl.
  by replace (k + S j)%nat with (S k + j)%nat by lia.
Qed.

Lemma getBallotInfo_infoOf env s i :
  i < ballotCounter s -> getBallotInfo env s i = Success (ballotInfoOf env s i).
Proof. apply getBallotInfo_existing. Qed.

(** [loadBallots] in closed form. *)
Lemma loadBallots_closed ct user env s :
  0 <= ballotCounter s ->
  loadBallots ct user env s
  = Success
      ((fun i =>
          transformBallot ct
            (match user with
             | Some a => (fun j => hasVotedOf (ballotAt s j) a) <$> seqZ 0 (ballotCounter s)
             | None => []
             end)
            (Z.to_nat i) (ballotInfoOf env s i))
       <$> seqZ 0 (ballotCounter s)).
Proof.
  intros Hc. unfold loadBallots, getTotalBallots.
  destruct (ballotCounter s =? 0) eqn:E.
  - apply Z.eqb_eq in E. by rewrite E.
  - rewrite (collect_loop (getBallotInfo env s) (ballotInfoOf env s))
      by (intros i Hi; apply getBallotInfo_infoOf; lia).
    rewrite bind_Success_l. rewrite Z2Nat.id by lia. simpl app.
    assert (match user with
            | Some userAddress =>
                for_range
                  (fun i acc => v ← SecretBallotBox.hasVoted s i userAddress;
                                Success (acc ++ [v]))
                  0 (Z.to_nat (ballotCounter s)) []
            | None => Success []
            end
            = Success
                (match user with
                 | Some a => (fun j => hasVotedOf (ballotAt s j) a)
                             <$> seqZ 0 (ballotCounter s)
                 | None => []
                 end)) as ->.
    { destruct user as [a|]; [|done].
      rewrite (collect_loop (fun i => SecretBallotBox.hasVoted s i a)
                 (fun j => hasVotedOf (ballotAt s j) a))
        by (intros i Hi; apply hasVoted_existing; lia).
      by rewrite Z2Nat.id by lia. }
    rewrite bind_Success_l. f_equal.
    pose proof (imap_seqZ
                  (transformBallot ct
                     (match user with
                      | Some a => (fun j => hasVotedOf (ballotAt s j) a)
                                  <$> seqZ 0 (ballotCounter s)
                      | None => []
                      end))
                  (ballotInfoOf env s) (Z.to_nat (ballotCounter s)) 0) as Him.
    change (Z.of_nat 0) with 0 in Him. rewrite Z2Nat.id in Him by lia.
    exact Him.
Qed.





Lemma hook_reveal_array_witness :
  revealArray Scenario.s2 0
    (mkClientBallot 0 "Election" ["Alice"; "Bob"; "Charlie"] 4600 false false
       Scenario.alice 1 true)
  = [1; 0; 0].
Proof.
  destruct (hook_reveal_array Scenario.s2 0
              (mkClientBallot 0 "Election" ["Alice"; "Bob"; "Charlie"] 4600 false
                 false Scenario.alice 1 true)) as (H & _).
  - discriminate.
  - simpl. lia.
  - exact H.
Defined.


(** ** The winner the front end shows *)

Lemma findIndex_first (m : Z) (l : list Z) :
  m ∈ l ->
  exists w, findIndex m l = Some w /\ l !! w = Some m /\
            forall j r, (j < w)%nat -> l !! j = Some r -> r <> m.
Proof.
  induction l as [|x l IH]; intros Hm; [by apply elem_of_nil in Hm|].
  simpl. destruct (x =? m) eqn:E.
  - apply Z.eqb_eq in E. subst. exists O.
    split; [done|]. split; [done|]. intros j r Hj. lia.
  - apply Z.eqb_neq in E. apply elem_of_cons in Hm as [->|Hm]; [done|].
    destruct (IH Hm) as (w & Hw & Hlook & Hbefore).
    exists (S w). rewrite Hw. split; [done|]. split; [done|].
    intros [|j] r Hj Hr; simpl in Hr.
    + injection Hr as <-. done.
    + apply (Hbefore j); [lia | done].
Qed.

(** X17. For counts below [2^53], the winner [getBallotResults] derives is
    the first candidate, in candidate order, whose count is the largest count:
    no count exceeds the winner's and every earlier count is strictly smaller.
    In particular a ballot whose counts are all equal, all zero included, shows
    its first candidate as winner; an empty result array gives no winner. *)
Theorem first_maximum_wins (cands : list string) (results : list Z) :
  winnerOf cands [] = None /\
  (results <> [] -> Forall (fun r => 0 <= r < 2 ^ 53) results ->
   exists w m,
     mathMax results = Some m /\
     findIndex m results = Some w /\
     results !! w = Some m /\
     (forall r, r ∈ results -> r <= m) /\
     (forall j r, (j < w)%nat -> results !! j = Some r -> r < m) /\
     winnerOf cands results = cands !! w).
Proof.
  split; [done|]. intros Hne _.
  destruct results as [|r rest]; [done|].
  set (m := foldl Z.max r rest).
  assert (forall x, x ∈ r :: rest -> x <= m) as Hbound.
  { intros x Hx. apply elem_of_cons in Hx as [->|Hx].
    - apply foldl_max_ge.
    - by apply foldl_max_bound. }
  assert (m ∈ r :: rest) as Hin.
  { destruct (foldl_max_attained rest r) as [H|H].
    - fold m in H. rewrite H. apply list_elem_of_here.
    - by apply list_elem_of_further. }
  destruct (findIndex_first m (r :: rest) Hin) as (w & Hw & Hlook & Hbefore).
  exists w, m. repeat split; try done.
  - intros j x Hj Hx.
    assert (x <= m) by (apply Hbound; apply list_elem_of_lookup; eauto).
    specialize (Hbefore j x Hj Hx). lia.
  - change (winnerOf cands (r :: rest))
      with (match findIndex m (r :: rest) with
            | Some winnerIndex => cands !! winnerIndex
            | None => None
            end).
    by rewrite Hw.
Qed.

Lemma first_maximum_wins_witness :
  exists w, winnerOf ["Alice"; "Bob"; "Charlie"] [0; 0; 0]
            = ["Alice"; "Bob"; "Charlie"] !! w.
Proof.
  destruct (first_maximum_wins ["Alice"; "Bob"; "Charlie"] [0; 0; 0]) as [_ H].
  destruct H as (w & m & _ & _ & _ & _ & _ & Hw);
    [discriminate | repeat constructor; simpl; lia |].
  exists w. exact Hw.
Defined.

(** ** The front end's ballot lists *)

Lemma fmap_filter_seqZ (H : Z -> ClientBallot) (P : ClientBallot -> Prop)
    `{!forall x, Decision (P x)} (n : nat) (k : Z) :
  (forall i, 0 <= i -> cb_id (H i) = i) -> 0 <= k ->
  cb_id <$> filter P (H <$> seqZ k (Z.of_nat n))
  = filter (fun i => P (H i)) (seqZ k (Z.of_nat n)).
Proof.
  intros Hid. revert k. induction n as [|n IH]; intros k Hk; [done|].
  rewrite seqZ_succ, fmap_cons.
  destruct (decide (P (H k))) as [HP|HP].
  - rewrite !filter_cons_True by done. rewrite fmap_cons, Hid by done.
    f_equal. apply IH. lia.
  - rewrite !filter_cons_False by done. apply IH. lia.
Qed.

(** X18. The lists the hook derives in [loadBallots], for fewer than [2^53]
    ballots and a browser clock below [2^53]. The loaded list has one
    entry per ballot, in id order; the ids of its active part are exactly what
    the contract's [getActiveBallots] returns at the later of the browser's
    time and the block time of the view calls; every other ballot is in its
    ended part; and with a signer present each entry's [hasUserVoted] is the
    contract's [hasVoted] for the signer. *)
Theorem client_lists ct user env a s ballots_ :
  0 <= ballotCounter s < 2 ^ 53 -> 0 <= ct < 2 ^ 53 ->
  loadBallots ct user env s = Success ballots_ ->
  cb_id <$> ballots_ = ballotIds s /\
  getActiveBallots (mkEnv (Z.max ct (timestamp env)) a) s
    = Success (cb_id <$> activeBallots ballots_) /\
  (forall i, 0 <= i < ballotCounter s ->
     i ∈ (cb_id <$> endedBallots ballots_) <-> i ∉ (cb_id <$> activeBallots ballots_)) /\
  (forall v i ballot, user = Some v -> ballots_ !! i = Some ballot ->
     SecretBallotBox.hasVoted s (Z.of_nat i) v = Success (cb_hasUserVoted ballot)).
Proof.
  intros [Hc _] _ Hload. rewrite loadBallots_closed in Hload by done.
  injection Hload as <-.
  set (uv := match user with
             | Some a => (fun j => hasVotedOf (ballotAt s j) a) <$> seqZ 0 (ballotCounter s)
             | None => []
             end).
  set (view := fun i => transformBallot ct uv (Z.to_nat i) (ballotInfoOf env s i)).
  assert (forall i, 0 <= i -> cb_id (view i) = i) as Hid
    by (intros i Hi; unfold view; simpl; lia).
  assert (forall (P : ClientBallot -> Prop) `{!forall x, Decision (P x)},
            cb_id <$> filter P (view <$> seqZ 0 (ballotCounter s))
            = filter (fun i => P (view i)) (ballotIds s)) as Hfilter.
  { intros P HP. unfold ballotIds.
    rewrite <- (Z2Nat.id (ballotCounter s)) by lia.
    by apply fmap_filter_seqZ. }
  split; [|split; [|split]].
  - rewrite <- list_fmap_compose. unfold ballotIds.
    rewrite <- (list_fmap_id (seqZ 0 (ballotCounter s))) at 2.
    apply list_fmap_ext. intros k i Hi. apply lookup_seqZ in Hi as [-> _].
    simpl. lia.
  - rewrite getActiveBallots_collect, collectIds_filter by done.
    unfold activeBallots. rewrite Hfilter. f_equal.
    apply list_filter_iff. intros i. unfold activeAt, view. simpl.
    destruct (isActive (ballotAt s i)); simpl; [|by rewrite andb_false_r].
    destruct (endTime (ballotAt s i) <=? ct) eqn:E1;
      destruct (timestamp env <? endTime (ballotAt s i)) eqn:E2;
      destruct (Z.max ct (timestamp env) <? endTime (ballotAt s i)) eqn:E3;
      simpl; try done;
      rewrite ?Z.leb_le, ?Z.leb_gt, ?Z.ltb_lt, ?Z.ltb_ge in *; lia.
  - intros i Hi. unfold endedBallots, activeBallots. rewrite !Hfilter.
    rewrite !list_elem_of_filter. unfold ballotIds. rewrite elem_of_seqZ.
    destruct (cb_isActive (view i)); simpl.
    + split; [intros [? _]; done | intros Hn; exfalso; apply Hn; split; [done | lia]].
    + split; [intros _ [? _]; done | intros _; split; [done | lia]].
  - intros v i ballot -> Hi.
    rewrite list_lookup_fmap in Hi.
    destruct (seqZ 0 (ballotCounter s) !! i) as [j|] eqn:Ej; [|done].
    apply lookup_seqZ in Ej as [-> Hlt]. injection Hi as <-.
    rewrite Z.add_0_l.
    rewrite hasVoted_existing by lia. f_equal. unfold view. simpl.
    rewrite Nat2Z.id. unfold uv. rewrite list_lookup_fmap, lookup_seqZ_lt by lia.
    simpl. done.
Qed.

Lemma client_lists_witness :
  getActiveBallots (mkEnv (Z.max 1500 1400) Scenario.alice) Scenario.s2
  = Success
      (cb_id <$> activeBallots
         [mkClientBallot 0 "Election" ["Alice"; "Bob"; "Charlie"] 4600 true false
            Scenario.alice 1 true]).
Proof.
  destruct (client_lists 1500 (Some Scenario.bob) (mkEnv 1400 Scenario.alice)
              Scenario.alice Scenario.s2
              [mkClientBallot 0 "Election" ["Alice"; "Bob"; "Charlie"] 4600 true
                 false Scenario.alice 1 true]) as (_ & H & _).
  - vm_compute. split; [discriminate | reflexivity].
  - vm_compute. split; [discriminate | reflexivity].
  - vm_compute. reflexivity.
  - exact H.
Defined.

(** ** The voting window *)

Lemma voteEncrypted_accepts iv env s b h p :
  b < ballotCounter s ->
  isActive (ballotAt s b) = true ->
  timestamp env < endTime (ballotAt s b) ->
  hasVotedOf (ballotAt s b) (sender env) = false ->
  iv (sender env) h p = true ->
  totalVotes (ballotAt s b) + 1 <= MAX_UINT256 ->
  voteEncrypted iv env s b h p
  = Success (storeBallot s b (credited 0 (sender env) (ballotAt s b)),
             [VoteCast b (sender env)]).
Proof.
  intros Hb Hact Hend Hnv Hiv Htot.
  unfold voteEncrypted, ballotExists, ballotActive, hasNotVoted, fromExternal,
    require, checked_add.
  rewrite (proj2 (Z.ltb_lt b (ballotCounter s))) by done. simpl.
  rewrite Hact. simpl.
  rewrite (proj2 (Z.ltb_lt (timestamp env) (endTime (ballotAt s b)))) by done.
  simpl. rewrite Hnv. simpl. rewrite Hiv. simpl.
  by rewrite (proj2 (Z.leb_le (totalVotes (ballotAt s b) + 1) MAX_UINT256)) by done.
Qed.

Lemma vote_rejects_ended env s b k :
  b < ballotCounter s ->
  isActive (ballotAt s b) = true ->
  endTime (ballotAt s b) <= timestamp env ->
  vote env s b k = Fail (Revert "Ballot has ended").
Proof.
  intros Hb Hact Hend. unfold vote, ballotExists, ballotActive, require.
  rewrite (proj2 (Z.ltb_lt b (ballotCounter s))) by done. simpl.
  rewrite Hact. simpl.
  by rewrite (proj2 (Z.ltb_ge (timestamp env) (endTime (ballotAt s b)))) by done.
Qed.

Lemma voteEncrypted_rejects_ended iv env s b h p :
  b < ballotCounter s ->
  isActive (ballotAt s b) = true ->
  endTime (ballotAt s b) <= timestamp env ->
  voteEncrypted iv env s b h p = Fail (Revert "Ballot has ended").
Proof.
  intros Hb Hact Hend. unfold voteEncrypted, ballotExists, ballotActive, require.
  rewrite (proj2 (Z.ltb_lt b (ballotCounter s))) by done. simpl.
  rewrite Hact. simpl.
  by rewrite (proj2 (Z.ltb_ge (timestamp env) (endTime (ballotAt s b)))) by done.
Qed.

Lemma run_totalVotes_le iv txs s b :
  b < ballotCounter s ->
  totalVotes (ballotAt (run iv s txs) b) <= totalVotes (ballotAt s b) + len txs.
Proof.
  revert s. induction txs as [|[env c] txs IH]; intros s Hb.
  - unfold len. simpl. lia.
  - change (run iv s ((env, c) :: txs)) with (run iv (step iv s env c) txs).
    assert (b < ballotCounter (step iv s env c)) as Hb'.
    { rewrite step_counter.
      destruct (isCreate (env, c) && accepted iv s env c); lia. }
    specialize (IH _ Hb'). rewrite step_totalVotes in IH by done.
    unfold len in *. simpl length.
    destruct (isVoteOn b (env, c) && accepted iv s env c); lia.
Qed.

(** X19. The voting window of a new ballot. Take an accepted [createBallot]
    in a reachable state at time [now], and any state that fewer than [2^256]
    later transactions lead to, whatever they are and whoever sends them.
    There, before [now + 60 * durationMinutes], an account with no accepted
    vote on the ballot so far has its [vote] accepted for every candidate
    index below the candidate count, and its [voteEncrypted] accepted whenever
    the input proof verifies; an account with an accepted vote on the ballot
    is rejected with "Already voted". At or after
    [now + 60 * durationMinutes] every [vote] and [voteEncrypted] on the
    ballot is rejected with "Ballot has ended". *)
Theorem voting_window iv s t env title_ cs d id s' ev txs :
  reachable iv s t ->
  createBallot env s title_ cs d = Success (id, s', ev) ->
  len txs < MAX_UINT256 ->
  forall env' k,
    (timestamp env' < timestamp env + d * 60 ->
     acceptedVotes iv id (sender env') s' txs = 0%nat ->
     (k < len cs ->
      exists s'', vote env' (run iv s' txs) id k
                  = Success (s'', [VoteCast id (sender env')])) /\
     (forall h p, iv (sender env') h p = true ->
      exists s'', voteEncrypted iv env' (run iv s' txs) id h p
                  = Success (s'', [VoteCast id (sender env')]))) /\
    (timestamp env' < timestamp env + d * 60 ->
     acceptedVotes iv id (sender env') s' txs <> 0%nat ->
     vote env' (run iv s' txs) id k = Fail (Revert "Already voted") /\
     forall h p,
       voteEncrypted iv env' (run iv s' txs) id h p = Fail (Revert "Already voted")) /\
    (timestamp env + d * 60 <= timestamp env' ->
     vote env' (run iv s' txs) id k = Fail (Revert "Ballot has ended") /\
     forall h p,
       voteEncrypted iv env' (run iv s' txs) id h p
       = Fail (Revert "Ballot has ended")).
Proof.
  intros Hreach Hcreate Htxs env' k.
  apply reachable_by_wf in Hreach as (Hcnt & Hfresh & _).
  apply createBallot_Success in Hcreate as (Hlen & Hd & Hc & He & -> & -> & _).
  assert (ballotAt s (ballotCounter s) = zeroBallot) as Hzero
    by (apply ballotAt_fresh, Hfresh; lia).
  set (s' := storeBallot (mkState (ballotCounter s + 1) (ballots s))
               (ballotCounter s)
               (created (timestamp env) (sender env) title_ cs d
                  (ballotAt s (ballotCounter s)))) in *.
  assert (ballotCounter s < ballotCounter s') as Hid by (simpl; lia).
  assert (ballotAt s' (ballotCounter s)
          = created (timestamp env) (sender env) title_ cs d zeroBallot) as Hnew.
  { unfold s'. by rewrite ballotAt_store_eq, Hzero. }
  destruct (run_evolves iv txs s' (ballotCounter s) Hid)
    as (Hcnt' & _ & Hcs & Hend & Hact & _).
  rewrite Hnew in Hcs, Hend, Hact. simpl in Hcs, Hend, Hact.
  pose proof (run_hasVoted_exact iv txs s' (ballotCounter s) (sender env')) as Hv.
  rewrite Hnew in Hv. change (hasVotedOf _ (sender env') || _)
    with (false || Nat.ltb 0 (acceptedVotes iv (ballotCounter s) (sender env') s' txs))
    in Hv.
  simpl orb in Hv.
  pose proof (run_totalVotes_le iv txs s' (ballotCounter s) Hid) as Htot.
  rewrite Hnew in Htot. simpl totalVotes in Htot.
  split; [|split].
  - intros Hwin Hfirst. rewrite Hfirst in Hv. simpl in Hv. split.
    + intros Hk. eexists. apply vote_accepts; try done; try lia.
      rewrite Hcs. done.
    + intros h p Hiv. eexists. apply voteEncrypted_accepts; try done; lia.
  - intros Hwin Hvoted.
    assert (hasVotedOf (ballotAt (run iv s' txs) (ballotCounter s)) (sender env')
            = true) as Hv'.
    { rewrite Hv. apply Nat.ltb_lt. lia. }
    assert ((timestamp env' <? endTime (ballotAt (run iv s' txs) (ballotCounter s)))
            = true) as Hlt by (apply Z.ltb_lt; lia).
    split.
    + rewrite vote_rejects_voted by (done || lia). by rewrite Hlt.
    + intros h p. rewrite voteEncrypted_rejects_voted by (done || lia).
      by rewrite Hlt.
  - intros Hlate. split.
    + apply vote_rejects_ended; try done; lia.
    + intros h p. apply voteEncrypted_rejects_ended; try done; lia.
Qed.

Lemma voting_window_witness :
  (exists s'',
     vote (mkEnv 4599 Scenario.alice)
          (run acceptAll Scenario.s1 [(mkEnv 1010 Scenario.bob, Vote 0 1)]) 0 2
     = Success (s'', [VoteCast 0 Scenario.alice])) /\
  vote (mkEnv 4599 Scenario.bob)
       (run acceptAll Scenario.s1 [(mkEnv 1010 Scenario.bob, Vote 0 1)]) 0 2
  = Fail (Revert "Already voted") /\
  vote (mkEnv 4600 Scenario.alice)
       (run acceptAll Scenario.s1 [(mkEnv 1010 Scenario.bob, Vote 0 1)]) 0 2
  = Fail (Revert "Ballot has ended").
Proof.
  assert (createBallot (mkEnv 1000 Scenario.alice) initState "Election"
            ["Alice"; "Bob"; "Charlie"] 60
          = Success (0, Scenario.s1, [BallotCreated 0 "Election" Scenario.alice 4600]))
    as Hcreate by (vm_compute; reflexivity).
  assert (reachable acceptAll initState 1000) as Hreach.
  { apply reach_deploy. apply is_uint256_small. simpl. lia. }
  assert (len [(mkEnv 1010 Scenario.bob, Vote 0 1)] < MAX_UINT256) as Htxs
    by (vm_compute; reflexivity).
  pose proof (voting_window acceptAll initState 1000 (mkEnv 1000 Scenario.alice)
                "Election" ["Alice"; "Bob"; "Charlie"] 60 0 Scenario.s1
                [BallotCreated 0 "Election" Scenario.alice 4600]
                [(mkEnv 1010 Scenario.bob, Vote 0 1)] Hreach Hcreate Htxs) as H.
  split; [|split].
  - destruct (H (mkEnv 4599 Scenario.alice) 2) as [Hin _].
    destruct Hin as [Hvote _].
    + simpl. lia.
    + vm_compute. reflexivity.
    + apply Hvote. vm_compute. reflexivity.
  - destruct (H (mkEnv 4599 Scenario.bob) 2) as (_ & Hdup & _).
    destruct Hdup as [Hvote _].
    + simpl. lia.
    + vm_compute. discriminate.
    + exact Hvote.
  - destruct (H (mkEnv 4600 Scenario.alice) 2) as (_ & _ & Hlate).
    destruct Hlate as [Hvote _].
    + simpl. lia.
    + exact Hvote.
Defined.

(** ** What [getResults] can return *)

Lemma reachable_results iv policy s t :
  reachable_by iv policy s t ->
  forall b, 0 <= b < ballotCounter s ->
    (forall i, 0 <= finalResultOf (ballotAt s b) i < 2 ^ 32) /\
    (resultsRevealed (ballotAt s b) = false ->
     forall i, finalResultOf (ballotAt s b) i = 0).
Proof.
  induction 1 as [t Ht | s t env c Hr IH Hle Henv Hc Hp].
  - simpl. intros b Hb. lia.
  - pose proof (reachable_by_wf _ _ _ _ Hr) as (Hcnt & Hfresh & Hex).
    pose proof (step_transition iv s env c) as Htr.
    destruct Htr; simpl in *.
    + done.
    + intros b Hb. destruct (decide (b = ballotCounter s)) as [->|Hne].
      * rewrite ballotAt_store_eq.
        rewrite (ballotAt_fresh s) by (apply Hfresh; lia).
        split; intros; done.
      * rewrite ballotAt_store_ne by done. rewrite ballotAt_counter.
        apply IH. lia.
    + intros b' Hb'. destruct (decide (b = b')) as [->|Hne].
      * rewrite ballotAt_store_eq. apply (IH b' Hb').
      * rewrite ballotAt_store_ne by done. auto.
    + intros b' Hb'. destruct (decide (b = b')) as [->|Hne].
      * rewrite ballotAt_store_eq. apply (IH b' Hb').
      * rewrite ballotAt_store_ne by done. auto.
    + intros b' Hb'. destruct (decide (b = b')) as [->|Hne].
      * rewrite ballotAt_store_eq. split; [|done].
        intros i. rewrite finalResultOf_revealedWith. case_decide.
        -- unfold uint32. by apply Z.mod_pos_bound.
        -- by apply (IH b' Hb').
      * rewrite ballotAt_store_ne by done. auto.
Qed.

(** X20. In every reachable state the stored results of an existing ballot
    are 32-bit values, so every value [getResults] returns is below [2^32];
    and before the reveal nothing is stored: every stored result is 0. *)
Theorem results_are_32_bit iv s t b :
  reachable iv s t -> 0 <= b < ballotCounter s ->
  (forall results, getResults s b = Success results ->
     Forall (fun r => 0 <= r < 2 ^ 32) results) /\
  (resultsRevealed (ballotAt s b) = false ->
   forall i, finalResultOf (ballotAt s b) i = 0).
Proof.
  intros Hreach Hb.
  destruct (reachable_results iv _ s t Hreach b Hb) as [Hrange Hzero].
  split; [|done]. intros results Hres.
  destruct (resultsRevealed (ballotAt s b)) eqn:Hrev.
  - rewrite getResults_revealed in Hres by (lia || done). injection Hres as <-.
    apply Forall_forall. intros r Hr.
    apply list_elem_of_fmap in Hr as (i & -> & _). apply Hrange.
  - unfold getResults, ballotExists, require in Hres.
    rewrite (proj2 (Z.ltb_lt b (ballotCounter s))) in Hres by lia.
    simpl in Hres. by rewrite Hrev in Hres.
Qed.

Lemma results_are_32_bit_witness :
  Forall (fun r => 0 <= r < 2 ^ 32) [5; 5; 5].
Proof.
  destruct (results_are_32_bit acceptAll Scenario.s3_forged 4600 0) as [H _].
  - apply scenario_s3_forged_reachable.
  - vm_compute. split; [discriminate | reflexivity].
  - apply H. vm_compute. reflexivity.
Defined.
